(** * HD44780LCD: a shallow embedding of the mbed I2C driver

    The driver (HD44780LCD.h / HD44780LCD.cpp) keeps a software copy of the
    controller's address counter, display-control mask and entry-mode mask,
    and frames every instruction or data byte as nibble writes on a PCF8574
    I2C expander.  Methods are embedded as computations of a small
    state-and-output monad: the state is the C++ object, the output is the
    chronological list of bus writes and sleeps the method performs. *)

From Stdlib Require Import ZArith List Bool Lia.
Import ListNotations.
Open Scope Z_scope.

(** ** Fixed-width unsigned integers *)

Definition u8  (x : Z) : Z := x mod 256.
Definition u16 (x : Z) : Z := x mod 65536.
Definition u32 (x : Z) : Z := x mod 4294967296.

(** ** Observable effects: [I2C::write] of one byte, [ThisThread::sleep_for] *)

Inductive event : Type :=
| I2CWrite (address data : Z)
| SleepFor (ms : Z).

(** The data bytes put on the bus, in order, forgetting the sleeps. *)
Fixpoint bus_writes (t : list event) : list Z :=
  match t with
  | [] => []
  | I2CWrite _ d :: t' => d :: bus_writes t'
  | SleepFor _ :: t' => bus_writes t'
  end.

(** ** The monad *)

Definition M (S A : Type) : Type := S -> A * S * list event.

Definition ret {S A} (a : A) : M S A := fun s => (a, s, []).

Definition bind {S A B} (m : M S A) (f : A -> M S B) : M S B :=
  fun s =>
    let '(a, s1, t1) := m s in
    let '(b, s2, t2) := f a s1 in
    (b, s2, t1 ++ t2).

Definition gets {S A} (f : S -> A) : M S A := fun s => (f s, s, []).
Definition modify {S} (f : S -> S) : M S unit := fun s => (tt, f s, []).
Definition emit {S} (e : event) : M S unit := fun s => (tt, s, [e]).

Notation "x <- c1 ;; c2" := (bind c1 (fun x => c2))
  (at level 61, c1 at next level, right associativity).
Notation "c1 ;; c2" := (bind c1 (fun _ => c2))
  (at level 61, right associativity).

Definition value {S A} (m : M S A) (s : S) : A := fst (fst (m s)).
Definition after {S A} (m : M S A) (s : S) : S := snd (fst (m s)).
Definition trace {S A} (m : M S A) (s : S) : list event := snd (m s).

(** A [for] loop over the values its control variable takes. *)
Fixpoint for_each {S A} (l : list A) (body : A -> M S unit) : M S unit :=
  match l with
  | [] => ret tt
  | x :: l' => body x ;; for_each l' body
  end.

Definition sleep_for {S} (ms : Z) : M S unit := emit (SleepFor ms).

(** ** Constants of HD44780LCD.cpp *)

Definition LO_NIBBLE (x : Z) : Z := Z.land (Z.shiftr x 0) 0x0f.
Definition HI_NIBBLE (x : Z) : Z := Z.land (Z.shiftr x 4) 0x0f.

Definition LCD_CLEAR_DISPLAY    : Z := 0x01.
Definition LCD_SET_CURSOR_HOME  : Z := 0x02.
Definition LCD_SET_ENTRY_MODE   : Z := 0x04.
Definition LCD_CURSOR_MOVE      : Z := 0x00.
Definition LCD_DISPLAY_MOVE     : Z := 0x01.
Definition LCD_CURSOR_POS_DEC   : Z := 0x00.
Definition LCD_CURSOR_POS_INC   : Z := 0x02.
Definition LCD_CONTROL_DISPLAY  : Z := 0x08.
Definition LCD_BLINK_DISABLE    : Z := 0x00.
Definition LCD_BLINK_ENABLE     : Z := 0x01.
Definition LCD_CURSOR_DISABLE   : Z := 0x00.
Definition LCD_CURSOR_ENABLE    : Z := 0x02.
Definition LCD_DISPLAY_ENABLE   : Z := 0x04.
Definition LCD_SHIFT_CURSOR     : Z := 0x10.
Definition LCD_CURSOR_MOVE_LT   : Z := 0x00.
Definition LCD_CURSOR_MOVE_RT   : Z := 0x04.
Definition LCD_DISPLAY_MOVE_LT  : Z := 0x08.
Definition LCD_DISPLAY_MOVE_RT  : Z := 0x0C.
Definition LCD_SET_FUNCTION     : Z := 0x20.
Definition LCD_DOT_COUNT_8      : Z := 0x00.
Definition LCD_DOT_COUNT_11     : Z := 0x04.
Definition LCD_LINE_COUNT_1     : Z := 0x00.
Definition LCD_LINE_COUNT_2     : Z := 0x08.
Definition LCD_BUS_SIZE_4       : Z := 0x00.
Definition LCD_BUS_SIZE_8       : Z := 0x10.
Definition LCD_SET_CGRAMADDR    : Z := 0x40.
Definition LCD_SET_DDRAMADDR    : Z := 0x80.
Definition LCD_ORIG_ADDR_SINGLE : Z := 0x00.
Definition LCD_ORIG_ADDR_FIRST  : Z := 0x00.
Definition LCD_ORIG_ADDR_SECOND : Z := 0x40.
Definition LCD_LINE_SIZE        : Z := 0x28.

Definition RS_ID        : Z := 0.
Definition RW_ID        : Z := 1.
Definition EN_ID        : Z := 2.
Definition BACKLIGHT_ID : Z := 3.

Definition DEFAULT_I2C_ADDR : Z := Z.shiftl 0x27 1.

(** ** class HD44780LCD::I2CInterface *)

Module I2CInterface.

(** The [I2C con] member is the bus itself: what is done to it is the
    output of the monad.  [addr] and [backlightMask] are [uint8_t]. *)
Record t : Type := mk { addr : Z; backlightMask : Z }.

Definition set_backlightMask (v : Z) (i : t) : t := mk (addr i) v.

(** [con.write(addr, ptr, 1)] *)
Definition write (b : Z) : M t unit :=
  a <- gets addr ;; emit (I2CWrite a b).

Definition new (a : Z) : t := mk a 0.

Definition send_byte (byte isData : Z) : M t unit :=
  for_each [0; 4] (fun k =>
    let nibble := Z.land (Z.shiftr byte (Z.lxor 4 k)) 0xf in
    bl <- gets backlightMask ;;
    let result :=
      u8 (Z.lor (Z.lor (Z.shiftl nibble 4) (Z.shiftl isData RS_ID)) bl) in
    let buf := [result; u8 (Z.lor result (Z.shiftl 1 EN_ID)); result] in
    for_each buf (fun b => write b ;; sleep_for 1)).

Definition send_nibble (nibble isData : Z) : M t unit :=
  bl <- gets backlightMask ;;
  let result :=
    u8 (Z.lor (Z.lor (Z.shiftl nibble 4) (Z.shiftl isData RS_ID)) bl) in
  let buf := [result; u8 (Z.lor result (Z.shiftl 1 EN_ID)); result] in
  for_each buf (fun b => write b ;; sleep_for 1).

Definition enable_backlight : M t unit :=
  modify (set_backlightMask (u8 (Z.shiftl 1 BACKLIGHT_ID))) ;;
  bl <- gets backlightMask ;; write bl.

Definition disable_backlight : M t unit :=
  modify (fun i => set_backlightMask
    (u8 (Z.land (backlightMask i) (Z.lnot (Z.shiftl 1 BACKLIGHT_ID)))) i) ;;
  bl <- gets backlightMask ;; write bl.

Definition toggle_backlight : M t unit :=
  modify (fun i => set_backlightMask
    (u8 (Z.lxor (backlightMask i) (Z.shiftl 1 BACKLIGHT_ID))) i) ;;
  bl <- gets backlightMask ;; write bl.

Definition is_backlight_on : M t bool :=
  bl <- gets backlightMask ;; ret (negb (bl =? 0)).

End I2CInterface.

(** ** class HD44780LCD *)

Inductive EntryMode : Type :=
| UNINITIALIZED
| CURSOR_INC
| CURSOR_DEC
| DISPLAY_DEC
| DISPLAY_INC.

(** [cursorLoc] is [uint32_t]; [displayState] and [cursorMovement] are
    [uint16_t]. *)
Record HD44780LCD : Type := mkLCD {
  con : I2CInterface.t;
  cursorLoc : Z;
  displayState : Z;
  cursorMovement : Z
}.

Definition set_con (c : I2CInterface.t) (s : HD44780LCD) : HD44780LCD :=
  mkLCD c (cursorLoc s) (displayState s) (cursorMovement s).
Definition set_cursorLoc (v : Z) (s : HD44780LCD) : HD44780LCD :=
  mkLCD (con s) v (displayState s) (cursorMovement s).
Definition set_displayState (v : Z) (s : HD44780LCD) : HD44780LCD :=
  mkLCD (con s) (cursorLoc s) v (cursorMovement s).
Definition set_cursorMovement (v : Z) (s : HD44780LCD) : HD44780LCD :=
  mkLCD (con s) (cursorLoc s) (displayState s) v.

(** A call [con.f(...)] on the member object. *)
Definition on_con {A} (m : M I2CInterface.t A) : M HD44780LCD A :=
  fun s => let '(a, c, t) := m (con s) in (a, set_con c s, t).

(** The constructor [HD44780LCD(i2c_sda, i2c_scl)]. *)
Definition new_HD44780LCD : HD44780LCD :=
  mkLCD (I2CInterface.new DEFAULT_I2C_ADDR) LCD_ORIG_ADDR_FIRST 0 0.

(** *** private methods *)

Definition update_display_cursor_pos : M HD44780LCD unit :=
  loc <- gets cursorLoc ;;
  on_con (I2CInterface.send_byte (u8 (Z.lor LCD_SET_DDRAMADDR loc)) 0).

Definition inc_cursor_loc : M HD44780LCD unit :=
  modify (fun s => set_cursorLoc (u32 (cursorLoc s + 1)) s) ;;
  loc <- gets cursorLoc ;;
  if loc >=? LCD_ORIG_ADDR_SECOND + LCD_LINE_SIZE then
    modify (set_cursorLoc LCD_ORIG_ADDR_FIRST)
  else if (loc <? LCD_ORIG_ADDR_SECOND)
          && (loc >=? LCD_ORIG_ADDR_FIRST + LCD_LINE_SIZE) then
    modify (set_cursorLoc LCD_ORIG_ADDR_SECOND)
  else ret tt.

Definition dec_cursor_loc : M HD44780LCD unit :=
  loc <- gets cursorLoc ;;
  if loc =? LCD_ORIG_ADDR_FIRST then
    modify (set_cursorLoc (LCD_ORIG_ADDR_SECOND + LCD_LINE_SIZE - 1))
  else if loc =? LCD_ORIG_ADDR_SECOND then
    modify (set_cursorLoc (LCD_ORIG_ADDR_FIRST + LCD_LINE_SIZE - 1))
  else
    modify (fun s => set_cursorLoc (u32 (cursorLoc s - 1)) s).

(** *** public methods *)

Definition initialize : M HD44780LCD unit :=
  sleep_for 50 ;;
  modify (set_displayState
    (Z.lor (Z.lor LCD_DISPLAY_ENABLE LCD_CURSOR_DISABLE) LCD_BLINK_DISABLE)) ;;
  modify (set_cursorMovement (Z.lor LCD_CURSOR_MOVE LCD_CURSOR_POS_INC)) ;;
  for_each [0; 1; 2] (fun _ =>
    on_con (I2CInterface.send_nibble
      (HI_NIBBLE (Z.lor LCD_SET_FUNCTION LCD_BUS_SIZE_8)) 0) ;;
    sleep_for 5) ;;
  on_con (I2CInterface.send_nibble
    (HI_NIBBLE (Z.lor LCD_SET_FUNCTION LCD_BUS_SIZE_4)) 0) ;;
  sleep_for 2 ;;
  on_con (I2CInterface.send_byte
    (Z.lor (Z.lor (Z.lor LCD_SET_FUNCTION LCD_BUS_SIZE_4) LCD_DOT_COUNT_8)
       LCD_LINE_COUNT_2) 0) ;;
  sleep_for 2 ;;
  on_con (I2CInterface.send_byte LCD_CLEAR_DISPLAY 0) ;;
  sleep_for 2 ;;
  on_con (I2CInterface.send_byte LCD_SET_CURSOR_HOME 0) ;;
  sleep_for 2 ;;
  ds <- gets displayState ;;
  on_con (I2CInterface.send_byte (u8 (Z.lor LCD_CONTROL_DISPLAY ds)) 0) ;;
  sleep_for 2 ;;
  cm <- gets cursorMovement ;;
  on_con (I2CInterface.send_byte (u8 (Z.lor LCD_SET_ENTRY_MODE cm)) 0) ;;
  sleep_for 2.

Definition send_data (byte : Z) : M HD44780LCD unit :=
  on_con (I2CInterface.send_byte byte 1) ;;
  cm <- gets cursorMovement ;;
  if negb (Z.land cm LCD_CURSOR_POS_INC =? 0)
  then inc_cursor_loc
  else dec_cursor_loc.

(** [buf] is the array [buf[0 .. len-1]]. *)
Definition send_buffer (buf : list Z) : M HD44780LCD unit :=
  for_each buf send_data.

Definition set_cursor_pos (r c : Z) : M HD44780LCD unit :=
  if (r >? 1) || (c >? LCD_LINE_SIZE) then ret tt
  else
    modify (set_cursorLoc
      (u32 ((if negb (r =? 0) then LCD_ORIG_ADDR_SECOND
             else LCD_ORIG_ADDR_FIRST) + c))) ;;
    update_display_cursor_pos.

Definition get_cursor_row : M HD44780LCD Z :=
  loc <- gets cursorLoc ;;
  ret (if loc >=? LCD_ORIG_ADDR_SECOND then 1 else 0).

Definition get_cursor_col : M HD44780LCD Z :=
  loc <- gets cursorLoc ;;
  ret (u32 (loc - (if loc >=? LCD_ORIG_ADDR_SECOND
                   then LCD_ORIG_ADDR_SECOND
                   else LCD_ORIG_ADDR_FIRST))).

(** [glyph] is the 8-byte array the pointer designates; the loop reads
    [glyph[0]] to [glyph[7]]. *)
Definition create_custom_char (loc : Z) (glyph : list Z) : M HD44780LCD unit :=
  on_con (I2CInterface.send_byte
    (u8 (Z.lor LCD_SET_CGRAMADDR (u32 (Z.shiftl loc 3)))) 0) ;;
  for_each (seq 0 8) (fun i =>
    on_con (I2CInterface.send_byte (nth i glyph 0) 1)) ;;
  r <- get_cursor_row ;;
  c <- get_cursor_col ;;
  set_cursor_pos r c.

Definition enable_backlight : M HD44780LCD unit :=
  on_con I2CInterface.enable_backlight.
Definition disable_backlight : M HD44780LCD unit :=
  on_con I2CInterface.disable_backlight.
Definition toggle_backlight : M HD44780LCD unit :=
  on_con I2CInterface.toggle_backlight.
Definition is_backlight_on : M HD44780LCD bool :=
  on_con I2CInterface.is_backlight_on.

Definition set_cursor_auto_dec : M HD44780LCD unit :=
  modify (set_cursorMovement (Z.lor LCD_CURSOR_POS_DEC LCD_CURSOR_MOVE)) ;;
  cm <- gets cursorMovement ;;
  on_con (I2CInterface.send_byte (u8 (Z.lor LCD_SET_ENTRY_MODE cm)) 0).

Definition set_cursor_auto_inc : M HD44780LCD unit :=
  modify (set_cursorMovement (Z.lor LCD_CURSOR_POS_INC LCD_CURSOR_MOVE)) ;;
  cm <- gets cursorMovement ;;
  on_con (I2CInterface.send_byte (u8 (Z.lor LCD_SET_ENTRY_MODE cm)) 0).

Definition set_display_auto_dec : M HD44780LCD unit :=
  modify (set_cursorMovement (Z.lor LCD_CURSOR_POS_INC LCD_DISPLAY_MOVE)) ;;
  cm <- gets cursorMovement ;;
  on_con (I2CInterface.send_byte (u8 (Z.lor LCD_SET_ENTRY_MODE cm)) 0).

Definition set_display_auto_inc : M HD44780LCD unit :=
  modify (set_cursorMovement (Z.lor LCD_CURSOR_POS_DEC LCD_DISPLAY_MOVE)) ;;
  cm <- gets cursorMovement ;;
  on_con (I2CInterface.send_byte (u8 (Z.lor LCD_SET_ENTRY_MODE cm)) 0).

Definition get_entry_mode : M HD44780LCD EntryMode :=
  cm <- gets cursorMovement ;;
  ret (if cm =? Z.lor LCD_CURSOR_MOVE LCD_CURSOR_POS_DEC then CURSOR_DEC
       else if cm =? Z.lor LCD_CURSOR_MOVE LCD_CURSOR_POS_INC then CURSOR_INC
       else if cm =? Z.lor LCD_DISPLAY_MOVE LCD_CURSOR_POS_INC then DISPLAY_DEC
       else if cm =? Z.lor LCD_DISPLAY_MOVE LCD_CURSOR_POS_DEC then DISPLAY_INC
       else CURSOR_INC).

Definition clear_display : M HD44780LCD unit :=
  on_con (I2CInterface.send_byte LCD_CLEAR_DISPLAY 0).

Definition enable_display : M HD44780LCD unit :=
  modify (fun s => set_displayState
    (u16 (Z.lor (displayState s) LCD_DISPLAY_ENABLE)) s) ;;
  ds <- gets displayState ;;
  on_con (I2CInterface.send_byte (u8 (Z.lor LCD_CONTROL_DISPLAY ds)) 0).
Definition disable_display : M HD44780LCD unit :=
  modify (fun s => set_displayState
    (u16 (Z.land (displayState s) (Z.lnot LCD_DISPLAY_ENABLE))) s) ;;
  ds <- gets displayState ;;
  on_con (I2CInterface.send_byte (u8 (Z.lor LCD_CONTROL_DISPLAY ds)) 0).
Definition toggle_display : M HD44780LCD unit :=
  modify (fun s => set_displayState
    (u16 (Z.lxor (displayState s) LCD_DISPLAY_ENABLE)) s) ;;
  ds <- gets displayState ;;
  on_con (I2CInterface.send_byte (u8 (Z.lor LCD_CONTROL_DISPLAY ds)) 0).
Definition is_display_enabled : M HD44780LCD bool :=
  ds <- gets displayState ;; ret (negb (ds =? 0)).

Definition set_cursor_home : M HD44780LCD unit :=
  modify (set_cursorLoc LCD_ORIG_ADDR_FIRST) ;;
  on_con (I2CInterface.send_byte LCD_SET_CURSOR_HOME 0).

Definition move_cursor_left : M HD44780LCD unit :=
  on_con (I2CInterface.send_byte
    (Z.lor LCD_SHIFT_CURSOR LCD_CURSOR_MOVE_LT) 0) ;;
  dec_cursor_loc.

Definition move_cursor_right : M HD44780LCD unit :=
  on_con (I2CInterface.send_byte
    (Z.lor LCD_SHIFT_CURSOR LCD_CURSOR_MOVE_RT) 0) ;;
  inc_cursor_loc.

Definition enable_cursor_display : M HD44780LCD unit :=
  modify (fun s => set_displayState
    (u16 (Z.lor (displayState s) LCD_CURSOR_ENABLE)) s) ;;
  ds <- gets displayState ;;
  on_con (I2CInterface.send_byte (u8 (Z.lor LCD_CONTROL_DISPLAY ds)) 0).
Definition disable_cursor_display : M HD44780LCD unit :=
  modify (fun s => set_displayState
    (u16 (Z.land (displayState s) (Z.lnot LCD_CURSOR_ENABLE))) s) ;;
  ds <- gets displayState ;;
  on_con (I2CInterface.send_byte (u8 (Z.lor LCD_CONTROL_DISPLAY ds)) 0).
Definition toggle_cursor_display : M HD44780LCD unit :=
  modify (fun s => set_displayState
    (u16 (Z.lxor (displayState s) LCD_CURSOR_ENABLE)) s) ;;
  ds <- gets displayState ;;
  on_con (I2CInterface.send_byte (u8 (Z.lor LCD_CONTROL_DISPLAY ds)) 0).
Definition is_cursor_displayed : M HD44780LCD bool :=
  ds <- gets displayState ;; ret (negb (Z.land ds LCD_CURSOR_ENABLE =? 0)).

Definition enable_blinking_cursor : M HD44780LCD unit :=
  modify (fun s => set_displayState
    (u16 (Z.lor (displayState s) LCD_BLINK_ENABLE)) s) ;;
  ds <- gets displayState ;;
  on_con (I2CInterface.send_byte (u8 (Z.lor LCD_CONTROL_DISPLAY ds)) 0).
Definition disable_blinking_cursor : M HD44780LCD unit :=
  modify (fun s => set_displayState
    (u16 (Z.land (displayState s) (Z.lnot LCD_BLINK_ENABLE))) s) ;;
  ds <- gets displayState ;;
  on_con (I2CInterface.send_byte (u8 (Z.lor LCD_CONTROL_DISPLAY ds)) 0).
Definition toggle_blinking_cursor : M HD44780LCD unit :=
  modify (fun s => set_displayState
    (u16 (Z.lxor (displayState s) LCD_BLINK_ENABLE)) s) ;;
  ds <- gets displayState ;;
  on_con (I2CInterface.send_byte (u8 (Z.lor LCD_CONTROL_DISPLAY ds)) 0).
Definition is_blinking_cursor_displayed : M HD44780LCD bool :=
  ds <- gets displayState ;; ret (negb (Z.land ds LCD_BLINK_ENABLE =? 0)).

Definition scroll_display_left : M HD44780LCD unit :=
  on_con (I2CInterface.send_byte
    (Z.lor LCD_SHIFT_CURSOR LCD_DISPLAY_MOVE_LT) 0).
Definition scroll_display_right : M HD44780LCD unit :=
  on_con (I2CInterface.send_byte
    (Z.lor LCD_SHIFT_CURSOR LCD_DISPLAY_MOVE_RT) 0).

(** [get_stream] initializes and returns [this]; the pointer is not
    modelled. *)
Definition get_stream : M HD44780LCD unit := initialize.

(** [c] is an [int]; 10 is '\n', 13 is '\r'. *)
Definition _putc (c : Z) : M HD44780LCD Z :=
  row <- get_cursor_row ;;
  col <- get_cursor_col ;;
  if c =? 10 then set_cursor_pos (u32 (Z.lxor row 1)) col ;; ret 0
  else if c =? 13 then set_cursor_pos row 0 ;; ret 0
  else send_data (u8 c) ;; ret 0.

Definition _getc : M HD44780LCD Z := ret (-1).

(** ** Auxiliary notions used in the statements *)

(** The six bytes [send_byte] puts on the wire, as the source computes them. *)
Definition nibble_frame (bl nibble isData : Z) : list Z :=
  let result :=
    u8 (Z.lor (Z.lor (Z.shiftl nibble 4) (Z.shiftl isData RS_ID)) bl) in
  [result; u8 (Z.lor result (Z.shiftl 1 EN_ID)); result].

Definition byte_frame (bl byte isData : Z) : list Z :=
  nibble_frame bl (HI_NIBBLE byte) isData ++
  nibble_frame bl (LO_NIBBLE byte) isData.

(** Each write is followed by the 1 ms sleep. *)
Definition paced (a : Z) (ws : list Z) : list event :=
  flat_map (fun w => [I2CWrite a w; SleepFor 1]) ws.

(** Repeating a method [n] times. *)
Fixpoint iterate {S} (n : nat) (m : M S unit) : M S unit :=
  match n with
  | O => ret tt
  | Datatypes.S n' => m ;; iterate n' m
  end.

(** The bit layout of one byte on the wire: bits 7..4 the nibble, bit 3
    the backlight, bit 2 the enable strobe, bit 1 read/write, bit 0
    register select. *)
Definition phase_layout (nibble : Z) (backlight strobe rs : bool) (w : Z)
  : Prop :=
  0 <= w < 256 /\
  Z.shiftr w 4 = nibble /\
  Z.testbit w BACKLIGHT_ID = backlight /\
  Z.testbit w EN_ID = strobe /\
  Z.testbit w RW_ID = false /\
  Z.testbit w RS_ID = rs.

Definition phase_layoutb (nibble : Z) (backlight strobe rs : bool) (w : Z)
  : bool :=
  (0 <=? w) && (w <? 256) &&
  (Z.shiftr w 4 =? nibble) &&
  Bool.eqb (Z.testbit w BACKLIGHT_ID) backlight &&
  Bool.eqb (Z.testbit w EN_ID) strobe &&
  Bool.eqb (Z.testbit w RW_ID) false &&
  Bool.eqb (Z.testbit w RS_ID) rs.

(** The layout of the six bytes framing [byte], as a boolean test. *)
Definition frame_layoutb (bl byte isData : Z) : bool :=
  match byte_frame bl byte isData with
  | [h0; h1; h2; l0; l1; l2] =>
      phase_layoutb (HI_NIBBLE byte) (negb (bl =? 0)) false (isData =? 1) h0 &&
      phase_layoutb (HI_NIBBLE byte) (negb (bl =? 0)) true (isData =? 1) h1 &&
      phase_layoutb (HI_NIBBLE byte) (negb (bl =? 0)) false (isData =? 1) h2 &&
      phase_layoutb (LO_NIBBLE byte) (negb (bl =? 0)) false (isData =? 1) l0 &&
      phase_layoutb (LO_NIBBLE byte) (negb (bl =? 0)) true (isData =? 1) l1 &&
      phase_layoutb (LO_NIBBLE byte) (negb (bl =? 0)) false (isData =? 1) l2 &&
      (Z.lxor h1 h0 =? Z.shiftl 1 EN_ID) && (h2 =? h0) &&
      (Z.lxor l1 l0 =? Z.shiftl 1 EN_ID) && (l2 =? l0)
  | _ => false
  end.

(** The two rows of DDRAM, and the unused addresses between them. *)
Definition in_row0 (a : Z) : Prop :=
  LCD_ORIG_ADDR_FIRST <= a < LCD_ORIG_ADDR_FIRST + LCD_LINE_SIZE.
Definition in_row1 (a : Z) : Prop :=
  LCD_ORIG_ADDR_SECOND <= a < LCD_ORIG_ADDR_SECOND + LCD_LINE_SIZE.
Definition in_gap (a : Z) : Prop :=
  LCD_ORIG_ADDR_FIRST + LCD_LINE_SIZE <= a < LCD_ORIG_ADDR_SECOND.
Definition valid_addr (a : Z) : Prop := in_row0 a \/ in_row1 a.

(** The address [inc_cursor_loc] and [dec_cursor_loc] leave in [cursorLoc],
    as a function of the one they find. *)
Definition next_loc (a : Z) : Z :=
  let a' := u32 (a + 1) in
  if a' >=? LCD_ORIG_ADDR_SECOND + LCD_LINE_SIZE then LCD_ORIG_ADDR_FIRST
  else if (a' <? LCD_ORIG_ADDR_SECOND)
          && (a' >=? LCD_ORIG_ADDR_FIRST + LCD_LINE_SIZE)
       then LCD_ORIG_ADDR_SECOND
       else a'.

Definition prev_loc (a : Z) : Z :=
  if a =? LCD_ORIG_ADDR_FIRST then LCD_ORIG_ADDR_SECOND + LCD_LINE_SIZE - 1
  else if a =? LCD_ORIG_ADDR_SECOND then LCD_ORIG_ADDR_FIRST + LCD_LINE_SIZE - 1
  else u32 (a - 1).

(** The address [send_data] leaves, by the entry-mode mask [cm]. *)
Definition step_loc (cm a : Z) : Z :=
  if negb (Z.land cm LCD_CURSOR_POS_INC =? 0) then next_loc a else prev_loc a.

(** The bus traffic of one instruction byte and of one data byte, for the
    driver in state [s]. *)
Definition instruction_write (s : HD44780LCD) (b : Z) : list event :=
  trace (on_con (I2CInterface.send_byte b 0)) s.
Definition data_write (s : HD44780LCD) (b : Z) : list event :=
  trace (on_con (I2CInterface.send_byte b 1)) s.

(** What the methods keep true of the fields.  The address may sit one past
    the end of a row, because [set_cursor_pos] accepts column 40. *)
Definition addr_bound (a : Z) : Prop :=
  LCD_ORIG_ADDR_FIRST <= a <= LCD_ORIG_ADDR_FIRST + LCD_LINE_SIZE \/
  LCD_ORIG_ADDR_SECOND <= a <= LCD_ORIG_ADDR_SECOND + LCD_LINE_SIZE.

Definition driver_inv (s : HD44780LCD) : Prop :=
  addr_bound (cursorLoc s) /\
  (I2CInterface.backlightMask (con s) = 0 \/
   I2CInterface.backlightMask (con s) = Z.shiftl 1 BACKLIGHT_ID) /\
  0 <= displayState s < 8 /\
  0 <= cursorMovement s < 4 /\
  I2CInterface.addr (con s) = DEFAULT_I2C_ADDR.

(** ** The public interface as a whole *)

Inductive call : Type :=
| Initialize
| Send_data (byte : Z)
| Send_buffer (buf : list Z)
| Create_custom_char (loc : Z) (glyph : list Z)
| Enable_backlight | Disable_backlight | Toggle_backlight | Is_backlight_on
| Set_cursor_auto_dec | Set_cursor_auto_inc
| Set_display_auto_dec | Set_display_auto_inc
| Get_entry_mode
| Clear_display
| Enable_display | Disable_display | Toggle_display | Is_display_enabled
| Set_cursor_home | Move_cursor_left | Move_cursor_right
| Set_cursor_pos (r c : Z)
| Get_cursor_row | Get_cursor_col
| Enable_cursor_display | Disable_cursor_display | Toggle_cursor_display
| Is_cursor_displayed
| Enable_blinking_cursor | Disable_blinking_cursor | Toggle_blinking_cursor
| Is_blinking_cursor_displayed
| Scroll_display_left | Scroll_display_right
| Get_stream
| Putc (c : Z)
| Getc.

Definition discard {S A} (m : M S A) : M S unit := _ <- m ;; ret tt.

Definition run_call (c : call) : M HD44780LCD unit :=
  match c with
  | Initialize => initialize
  | Send_data byte => send_data byte
  | Send_buffer buf => send_buffer buf
  | Create_custom_char loc glyph => create_custom_char loc glyph
  | Enable_backlight => enable_backlight
  | Disable_backlight => disable_backlight
  | Toggle_backlight => toggle_backlight
  | Is_backlight_on => discard is_backlight_on
  | Set_cursor_auto_dec => set_cursor_auto_dec
  | Set_cursor_auto_inc => set_cursor_auto_inc
  | Set_display_auto_dec => set_display_auto_dec
  | Set_display_auto_inc => set_display_auto_inc
  | Get_entry_mode => discard get_entry_mode
  | Clear_display => clear_display
  | Enable_display => enable_display
  | Disable_display => disable_display
  | Toggle_display => toggle_display
  | Is_display_enabled => discard is_display_enabled
  | Set_cursor_home => set_cursor_home
  | Move_cursor_left => move_cursor_left
  | Move_cursor_right => move_cursor_right
  | Set_cursor_pos r c => set_cursor_pos r c
  | Get_cursor_row => discard get_cursor_row
  | Get_cursor_col => discard get_cursor_col
  | Enable_cursor_display => enable_cursor_display
  | Disable_cursor_display => disable_cursor_display
  | Toggle_cursor_display => toggle_cursor_display
  | Is_cursor_displayed => discard is_cursor_displayed
  | Enable_blinking_cursor => enable_blinking_cursor
  | Disable_blinking_cursor => disable_blinking_cursor
  | Toggle_blinking_cursor => toggle_blinking_cursor
  | Is_blinking_cursor_displayed => discard is_blinking_cursor_displayed
  | Scroll_display_left => scroll_display_left
  | Scroll_display_right => scroll_display_right
  | Get_stream => get_stream
  | Putc c => discard (_putc c)
  | Getc => discard _getc
  end.

(** Arguments in the range of their C++ parameter type. *)
Definition is_u8 (x : Z) : Prop := 0 <= x < 256.
Definition is_u32 (x : Z) : Prop := 0 <= x < 4294967296.
Definition is_int (x : Z) : Prop := -2147483648 <= x < 2147483648.

Definition well_typed (c : call) : Prop :=
  match c with
  | Send_data byte => is_u8 byte
  | Send_buffer buf => Forall is_u8 buf
  | Create_custom_char loc glyph =>
      is_u32 loc /\ length glyph = 8%nat /\ Forall is_u8 glyph
  | Set_cursor_pos r c => is_u32 r /\ is_u32 c
  | Putc c => is_int c
  | _ => True
  end.

(** The states a client can bring a freshly constructed driver into. *)
Inductive reachable : HD44780LCD -> Prop :=
| reach_new : reachable new_HD44780LCD
| reach_call (s : HD44780LCD) (c : call) :
    reachable s -> well_typed c -> reachable (after (run_call c) s).

(** Boolean form of [valid_addr]. *)
Definition valid_addrb (a : Z) : bool :=
  ((LCD_ORIG_ADDR_FIRST <=? a) && (a <? LCD_ORIG_ADDR_FIRST + LCD_LINE_SIZE))
  || ((LCD_ORIG_ADDR_SECOND <=? a)
      && (a <? LCD_ORIG_ADDR_SECOND + LCD_LINE_SIZE)).

(** A client that never asks for column 40. *)
Definition avoids_col40 (c : call) : Prop :=
  match c with
  | Set_cursor_pos _ col => col <> LCD_LINE_SIZE
  | _ => True
  end.

(** Reading a byte and its register-select bit back from the six bytes of
    a frame, at the two phases where the strobe is high. *)
Definition decode_frame (ws : list Z) : option (Z * Z) :=
  match ws with
  | [_; h; _; _; l; _] =>
      Some (Z.lor (Z.shiftl (Z.shiftr h 4) 4) (Z.shiftr l 4),
            Z.land h (Z.shiftl 1 RS_ID))
  | _ => None
  end.

(** What every event on the bus must satisfy, for a device at address [a]
    whose backlight mask is [bl]: a write goes to [a], carries one byte,
    has the read/write bit clear and the backlight bit as in [bl]. *)
Definition disciplined (a bl : Z) (e : event) : Prop :=
  match e with
  | I2CWrite a' d =>
      a' = a /\ 0 <= d < 256 /\
      Z.testbit d RW_ID = false /\
      Z.testbit d BACKLIGHT_ID = negb (bl =? 0)
  | SleepFor ms => 0 < ms
  end.

Definition disciplinedb (bl d : Z) : bool :=
  (0 <=? d) && (d <? 256) && negb (Z.testbit d RW_ID) &&
  Bool.eqb (Z.testbit d BACKLIGHT_ID) (negb (bl =? 0)).

(** The nine methods that change the display-control mask. *)
Definition display_control_methods : list (M HD44780LCD unit) :=
  [enable_display; disable_display; toggle_display;
   enable_cursor_display; disable_cursor_display; toggle_cursor_display;
   enable_blinking_cursor; disable_blinking_cursor; toggle_blinking_cursor].

(** The four methods that set the entry mode. *)
Definition entry_mode_methods : list (M HD44780LCD unit) :=
  [set_cursor_auto_dec; set_cursor_auto_inc;
   set_display_auto_dec; set_display_auto_inc].

(** A computation that leaves the bus interface as it is and keeps to the
    bus discipline, whenever the backlight mask is 0 or 8. *)
Definition quiet {A} (m : M HD44780LCD A) : Prop :=
  forall s : HD44780LCD,
    (I2CInterface.backlightMask (con s) = 0 \/
     I2CInterface.backlightMask (con s) = 8) ->
    con (after m s) = con s /\
    Forall (disciplined (I2CInterface.addr (con s))
              (I2CInterface.backlightMask (con s))) (trace m s).

(** * Verification *)

(** ** Running computations *)

Lemma value_bind {S A B} (m : M S A) (f : A -> M S B) (s : S) :
  value (bind m f) s = value (f (value m s)) (after m s).
Proof.
  unfold value, after, bind. destruct (m s) as [[a s1] t1]. simpl.
  destruct (f a s1) as [[b s2] t2]. reflexivity.
Qed.

Lemma after_bind {S A B} (m : M S A) (f : A -> M S B) (s : S) :
  after (bind m f) s = after (f (value m s)) (after m s).
Proof.
  unfold value, after, bind. destruct (m s) as [[a s1] t1]. simpl.
  destruct (f a s1) as [[b s2] t2]. reflexivity.
Qed.

Lemma trace_bind {S A B} (m : M S A) (f : A -> M S B) (s : S) :
  trace (bind m f) s = trace m s ++ trace (f (value m s)) (after m s).
Proof.
  unfold value, after, trace, bind. destruct (m s) as [[a s1] t1]. simpl.
  destruct (f a s1) as [[b s2] t2]. reflexivity.
Qed.

Lemma bus_writes_app (t1 t2 : list event) :
  bus_writes (t1 ++ t2) = bus_writes t1 ++ bus_writes t2.
Proof.
  induction t1 as [|[a d|ms] t1 IH]; simpl; rewrite ?IH; reflexivity.
Qed.

Lemma gtb_false (x y : Z) : x <= y -> (x >? y) = false.
Proof. intros H. rewrite Z.gtb_ltb. apply Z.ltb_ge. exact H. Qed.

Lemma gtb_true (x y : Z) : y < x -> (x >? y) = true.
Proof. intros H. rewrite Z.gtb_ltb. apply Z.ltb_lt. exact H. Qed.

Lemma geb_false (x y : Z) : x < y -> (x >=? y) = false.
Proof. intros H. rewrite Z.geb_leb. apply Z.leb_gt. exact H. Qed.

Lemma geb_true (x y : Z) : y <= x -> (x >=? y) = true.
Proof. intros H. rewrite Z.geb_leb. apply Z.leb_le. exact H. Qed.

Lemma u8_small (x : Z) : 0 <= x < 256 -> u8 x = x.
Proof. intros H. unfold u8. apply Z.mod_small. exact H. Qed.

Lemma u32_small (x : Z) : 0 <= x < 4294967296 -> u32 x = x.
Proof. intros H. unfold u32. apply Z.mod_small. exact H. Qed.

Lemma bus_writes_paced (a : Z) (ws : list Z) : bus_writes (paced a ws) = ws.
Proof. induction ws as [|w ws IH]; simpl; rewrite ?IH; reflexivity. Qed.

Lemma send_byte_run (byte isData : Z) (i : I2CInterface.t) :
  I2CInterface.send_byte byte isData i =
  (tt, i, paced (I2CInterface.addr i)
            (byte_frame (I2CInterface.backlightMask i) byte isData)).
Proof. reflexivity. Qed.

Lemma send_nibble_run (nibble isData : Z) (i : I2CInterface.t) :
  I2CInterface.send_nibble nibble isData i =
  (tt, i, paced (I2CInterface.addr i)
            (nibble_frame (I2CInterface.backlightMask i) nibble isData)).
Proof. reflexivity. Qed.

Lemma set_con_same (s : HD44780LCD) : set_con (con s) s = s.
Proof. destruct s. reflexivity. Qed.

Lemma on_con_send_byte_run (byte isData : Z) (s : HD44780LCD) :
  on_con (I2CInterface.send_byte byte isData) s =
  (tt, s, paced (I2CInterface.addr (con s))
            (byte_frame (I2CInterface.backlightMask (con s)) byte isData)).
Proof.
  unfold on_con. rewrite send_byte_run, set_con_same. reflexivity.
Qed.

Lemma after_send_byte (byte isData : Z) (s : HD44780LCD) :
  after (on_con (I2CInterface.send_byte byte isData)) s = s.
Proof. unfold after. rewrite on_con_send_byte_run. reflexivity. Qed.

Lemma trace_send_byte (byte isData : Z) (s : HD44780LCD) :
  trace (on_con (I2CInterface.send_byte byte isData)) s =
  paced (I2CInterface.addr (con s))
    (byte_frame (I2CInterface.backlightMask (con s)) byte isData).
Proof. unfold trace. rewrite on_con_send_byte_run. reflexivity. Qed.

(** ** Cursor positioning *)

(** C3: for row 0 or 1 and a column below 40, [set_cursor_pos] followed by
    [get_cursor_row] and [get_cursor_col] returns exactly that row and
    column, and the stored address is the row's base plus the column. *)
Theorem set_cursor_pos_get_roundtrip (s : HD44780LCD) (r c : Z)
  (Hr : r = 0 \/ r = 1) (Hc : 0 <= c < 40) :
  value get_cursor_row (after (set_cursor_pos r c) s) = r /\
  value get_cursor_col (after (set_cursor_pos r c) s) = c /\
  cursorLoc (after (set_cursor_pos r c) s) =
    (if r =? 0 then LCD_ORIG_ADDR_FIRST else LCD_ORIG_ADDR_SECOND) + c.
Proof.
  assert (Hguard : (r >? 1) || (c >? LCD_LINE_SIZE) = false).
  { apply orb_false_iff. unfold LCD_LINE_SIZE.
    split; apply gtb_false; lia. }
  unfold set_cursor_pos. rewrite Hguard.
  rewrite after_bind. unfold update_display_cursor_pos.
  rewrite after_bind, after_send_byte.
  unfold get_cursor_row, get_cursor_col, value, after, bind, gets, modify, ret.
  cbn [fst snd cursorLoc set_cursorLoc].
  unfold LCD_ORIG_ADDR_FIRST, LCD_ORIG_ADDR_SECOND.
  destruct Hr as [-> | ->]; cbn [Z.eqb negb].
  - rewrite (u32_small (0 + c)) by lia.
    rewrite geb_false by lia.
    rewrite u32_small by lia. repeat split; lia.
  - rewrite (u32_small (64 + c)) by lia.
    rewrite geb_true by lia.
    rewrite u32_small by lia. repeat split; lia.
Qed.

Lemma set_cursor_pos_get_roundtrip_witness :
  value get_cursor_row (after (set_cursor_pos 1 39) new_HD44780LCD) = 1 /\
  value get_cursor_col (after (set_cursor_pos 1 39) new_HD44780LCD) = 39 /\
  cursorLoc (after (set_cursor_pos 1 39) new_HD44780LCD) =
    (if 1 =? 0 then LCD_ORIG_ADDR_FIRST else LCD_ORIG_ADDR_SECOND) + 39.
Proof.
  apply (set_cursor_pos_get_roundtrip new_HD44780LCD 1 39); [right; reflexivity | lia].
Defined.

Lemma inc_cursor_loc_run (s : HD44780LCD) :
  inc_cursor_loc s = (tt, set_cursorLoc (next_loc (cursorLoc s)) s, []).
Proof.
  destruct s as [i loc ds cm].
  unfold inc_cursor_loc, next_loc, bind, modify, gets, ret.
  cbn [cursorLoc set_cursorLoc con displayState cursorMovement].
  destruct (u32 (loc + 1) >=? LCD_ORIG_ADDR_SECOND + LCD_LINE_SIZE);
    [reflexivity|].
  destruct ((u32 (loc + 1) <? LCD_ORIG_ADDR_SECOND)
            && (u32 (loc + 1) >=? LCD_ORIG_ADDR_FIRST + LCD_LINE_SIZE));
    reflexivity.
Qed.

Lemma dec_cursor_loc_run (s : HD44780LCD) :
  dec_cursor_loc s = (tt, set_cursorLoc (prev_loc (cursorLoc s)) s, []).
Proof.
  destruct s as [i loc ds cm].
  unfold dec_cursor_loc, prev_loc, bind, modify, gets, ret.
  cbn [cursorLoc set_cursorLoc con displayState cursorMovement].
  destruct (loc =? LCD_ORIG_ADDR_FIRST); [reflexivity|].
  destruct (loc =? LCD_ORIG_ADDR_SECOND); reflexivity.
Qed.

Lemma after_inc_cursor_loc (s : HD44780LCD) :
  after inc_cursor_loc s = set_cursorLoc (next_loc (cursorLoc s)) s.
Proof. unfold after. rewrite inc_cursor_loc_run. reflexivity. Qed.

Lemma after_dec_cursor_loc (s : HD44780LCD) :
  after dec_cursor_loc s = set_cursorLoc (prev_loc (cursorLoc s)) s.
Proof. unfold after. rewrite dec_cursor_loc_run. reflexivity. Qed.

Lemma next_loc_row0 (a : Z) : 0 <= a < 39 -> next_loc a = a + 1.
Proof.
  intros H. unfold next_loc, LCD_ORIG_ADDR_SECOND, LCD_ORIG_ADDR_FIRST,
    LCD_LINE_SIZE. cbn zeta. rewrite u32_small by lia.
  rewrite geb_false by lia. rewrite (geb_false (a + 1)) by lia.
  rewrite andb_false_r. reflexivity.
Qed.

Lemma next_loc_row1 (a : Z) : 64 <= a < 103 -> next_loc a = a + 1.
Proof.
  intros H. unfold next_loc, LCD_ORIG_ADDR_SECOND, LCD_ORIG_ADDR_FIRST,
    LCD_LINE_SIZE. cbn zeta. rewrite u32_small by lia.
  rewrite geb_false by lia.
  replace (a + 1 <? 64) with false by (symmetry; apply Z.ltb_ge; lia).
  reflexivity.
Qed.

Lemma prev_loc_plain (a : Z) :
  0 < a < 4294967296 -> a <> 64 -> prev_loc a = a - 1.
Proof.
  intros H H64. unfold prev_loc, LCD_ORIG_ADDR_SECOND, LCD_ORIG_ADDR_FIRST.
  replace (a =? 0) with false by (symmetry; apply Z.eqb_neq; lia).
  replace (a =? 64) with false by (symmetry; apply Z.eqb_neq; lia).
  apply u32_small. lia.
Qed.

(** The increment never leaves the two rows, whatever it starts from. *)
Lemma next_loc_valid (a : Z) : valid_addr (next_loc a).
Proof.
  unfold next_loc, valid_addr, in_row0, in_row1, LCD_ORIG_ADDR_SECOND,
    LCD_ORIG_ADDR_FIRST, LCD_LINE_SIZE. cbn zeta.
  assert (Hm : 0 <= u32 (a + 1) < 4294967296)
    by (unfold u32; apply Z.mod_pos_bound; lia).
  destruct (Z.geb_spec (u32 (a + 1)) (64 + 40)); [lia|].
  destruct (Z.ltb_spec (u32 (a + 1)) 64);
    destruct (Z.geb_spec (u32 (a + 1)) (0 + 40)); cbn [andb]; lia.
Qed.

(** ** The column bound of [set_cursor_pos] *)

(** C2 (defect): column 40 is one past the last cell of a row, yet
    [set_cursor_pos 0 40] is not rejected: on a fresh driver it stores
    address 0x28 and issues the DDRAM-address instruction 0xA8. *)
Theorem set_cursor_pos_col40_not_rejected :
  cursorLoc new_HD44780LCD = 0 /\
  cursorLoc (after (set_cursor_pos 0 40) new_HD44780LCD) = 0x28 /\
  bus_writes (trace (set_cursor_pos 0 40) new_HD44780LCD) =
    [0xA0; 0xA4; 0xA0; 0x80; 0x84; 0x80].
Proof. repeat split; reflexivity. Qed.

(** C1 (defect): the call [set_cursor_pos 0 40], which the public interface
    accepts, takes a freshly constructed driver to a state whose stored
    address lies in the gap between the rows. *)
Theorem cursor_enters_gap_via_col40 :
  reachable (after (run_call (Set_cursor_pos 0 40)) new_HD44780LCD) /\
  in_gap (cursorLoc (after (run_call (Set_cursor_pos 0 40)) new_HD44780LCD)) /\
  ~ valid_addr
      (cursorLoc (after (run_call (Set_cursor_pos 0 40)) new_HD44780LCD)).
Proof.
  split; [|split].
  - apply reach_call; [apply reach_new|].
    cbn [well_typed]. unfold is_u32. split; lia.
  - unfold in_gap. vm_compute. split; [discriminate | reflexivity].
  - change (cursorLoc (after (run_call (Set_cursor_pos 0 40)) new_HD44780LCD))
      with 40.
    unfold valid_addr, in_row0, in_row1, LCD_ORIG_ADDR_FIRST,
      LCD_ORIG_ADDR_SECOND, LCD_LINE_SIZE. lia.
Qed.

(** C4 (defect): at the reachable address 0x28, [move_cursor_right] followed
    by [move_cursor_left] ends at 0x27, not back at 0x28. *)
Theorem inc_dec_not_inverse_at_col40 :
  reachable (after (run_call (Set_cursor_pos 0 40)) new_HD44780LCD) /\
  cursorLoc (after (run_call (Set_cursor_pos 0 40)) new_HD44780LCD) = 0x28 /\
  cursorLoc (after (move_cursor_right ;; move_cursor_left)
               (after (run_call (Set_cursor_pos 0 40)) new_HD44780LCD)) = 0x27.
Proof.
  split; [|split; reflexivity].
  apply reach_call; [apply reach_new|].
  cbn [well_typed]. unfold is_u32. split; lia.
Qed.

(** ** The increment orbit *)

Lemma cursorLoc_iterate_inc (n : nat) (s : HD44780LCD) :
  cursorLoc (after (iterate n inc_cursor_loc) s) =
  Nat.iter n next_loc (cursorLoc s).
Proof.
  revert s. induction n as [|n IH]; intros s.
  - reflexivity.
  - cbn [iterate]. rewrite after_bind, IH, after_inc_cursor_loc.
    destruct s as [i loc ds cm]. cbn [cursorLoc set_cursorLoc Nat.iter].
    apply Nat.iter_swap.
Qed.

(** C5: from position (0,0), forty increments give address 0x40, that is
    (1,0); eighty give (0,0) again; the addresses met on the way are the 40
    of row 0 then the 40 of row 1, none in the gap, and no shorter positive
    number of increments returns to the start. *)
Theorem inc_cursor_loc_orbit (s : HD44780LCD) (H0 : cursorLoc s = 0) :
  cursorLoc (after (iterate 40 inc_cursor_loc) s) = 0x40 /\
  value get_cursor_row (after (iterate 40 inc_cursor_loc) s) = 1 /\
  value get_cursor_col (after (iterate 40 inc_cursor_loc) s) = 0 /\
  cursorLoc (after (iterate 80 inc_cursor_loc) s) = 0 /\
  map (fun k => cursorLoc (after (iterate k inc_cursor_loc) s)) (seq 0 80) =
    map Z.of_nat (seq 0 40 ++ seq 64 40) /\
  (forall k : nat, (0 < k < 80)%nat ->
     cursorLoc (after (iterate k inc_cursor_loc) s) <> 0) /\
  (forall k : nat,
     ~ in_gap (cursorLoc (after (iterate k inc_cursor_loc) s))).
Proof.
  assert (Horbit :
    map (fun k => Nat.iter k next_loc 0) (seq 0 80) =
    map Z.of_nat (seq 0 40 ++ seq 64 40)) by (vm_compute; reflexivity).
  assert (Hmin : forallb (fun k => negb (Nat.iter k next_loc 0 =? 0))
                   (seq 1 79) = true) by (vm_compute; reflexivity).
  repeat split.
  - rewrite cursorLoc_iterate_inc, H0. vm_compute. reflexivity.
  - unfold get_cursor_row, value, bind, gets, ret. cbn [fst].
    rewrite cursorLoc_iterate_inc, H0. vm_compute. reflexivity.
  - unfold get_cursor_col, value, bind, gets, ret. cbn [fst].
    rewrite cursorLoc_iterate_inc, H0. vm_compute. reflexivity.
  - rewrite cursorLoc_iterate_inc, H0. vm_compute. reflexivity.
  - rewrite <- Horbit. apply map_ext. intros k.
    rewrite cursorLoc_iterate_inc, H0. reflexivity.
  - intros k Hk. rewrite cursorLoc_iterate_inc, H0.
    rewrite forallb_forall in Hmin.
    specialize (Hmin k). rewrite in_seq in Hmin.
    assert (Hin : (1 <= k < 1 + 79)%nat) by lia.
    apply Hmin in Hin. apply negb_true_iff, Z.eqb_neq in Hin. exact Hin.
  - intros k. rewrite cursorLoc_iterate_inc, H0.
    destruct k as [|k].
    + change (Nat.iter 0 next_loc 0) with 0.
      unfold in_gap, LCD_ORIG_ADDR_FIRST, LCD_LINE_SIZE,
        LCD_ORIG_ADDR_SECOND. lia.
    + change (Nat.iter (S k) next_loc 0)
        with (next_loc (Nat.iter k next_loc 0)).
      pose proof (next_loc_valid (Nat.iter k next_loc 0)) as Hv.
      unfold valid_addr, in_row0, in_row1, in_gap, LCD_ORIG_ADDR_FIRST,
        LCD_LINE_SIZE, LCD_ORIG_ADDR_SECOND in *. lia.
Qed.

Lemma inc_cursor_loc_orbit_witness :
  cursorLoc (after (iterate 40 inc_cursor_loc) new_HD44780LCD) = 0x40 /\
  cursorLoc (after (iterate 80 inc_cursor_loc) new_HD44780LCD) = 0.
Proof.
  pose proof (inc_cursor_loc_orbit new_HD44780LCD eq_refl) as H.
  split; [exact (proj1 H) | exact (proj1 (proj2 (proj2 (proj2 H))))].
Defined.

(** ** Entry mode *)

(** C7: each entry-mode setter is read back by [get_entry_mode] as the mode
    of the same name, and any mask other than the four the setters store is
    read as [CURSOR_INC]. *)
Theorem entry_mode_roundtrip (s : HD44780LCD) (m : Z)
  (Hm : m <> cursorMovement (after set_cursor_auto_inc s) /\
        m <> cursorMovement (after set_cursor_auto_dec s) /\
        m <> cursorMovement (after set_display_auto_inc s) /\
        m <> cursorMovement (after set_display_auto_dec s)) :
  value get_entry_mode (after set_cursor_auto_inc s) = CURSOR_INC /\
  value get_entry_mode (after set_cursor_auto_dec s) = CURSOR_DEC /\
  value get_entry_mode (after set_display_auto_inc s) = DISPLAY_INC /\
  value get_entry_mode (after set_display_auto_dec s) = DISPLAY_DEC /\
  value get_entry_mode (set_cursorMovement m s) = CURSOR_INC.
Proof.
  destruct s as [[a bl] loc ds cm].
  repeat split; try reflexivity.
  destruct Hm as (H2 & H0 & H1 & H3).
  change (m <> 2) in H2. change (m <> 0) in H0.
  change (m <> 1) in H1. change (m <> 3) in H3.
  unfold get_entry_mode, value, bind, gets, ret.
  cbn [fst cursorMovement set_cursorMovement].
  change (Z.lor LCD_CURSOR_MOVE LCD_CURSOR_POS_DEC) with 0.
  change (Z.lor LCD_CURSOR_MOVE LCD_CURSOR_POS_INC) with 2.
  change (Z.lor LCD_DISPLAY_MOVE LCD_CURSOR_POS_INC) with 3.
  change (Z.lor LCD_DISPLAY_MOVE LCD_CURSOR_POS_DEC) with 1.
  apply Z.eqb_neq in H0, H1, H2, H3. rewrite H0, H1, H2, H3. reflexivity.
Qed.

Lemma entry_mode_roundtrip_witness :
  value get_entry_mode (after set_display_auto_inc new_HD44780LCD)
    = DISPLAY_INC /\
  value get_entry_mode (set_cursorMovement 7 new_HD44780LCD) = CURSOR_INC.
Proof.
  assert (H : 7 <> cursorMovement (after set_cursor_auto_inc new_HD44780LCD) /\
              7 <> cursorMovement (after set_cursor_auto_dec new_HD44780LCD) /\
              7 <> cursorMovement (after set_display_auto_inc new_HD44780LCD) /\
              7 <> cursorMovement (after set_display_auto_dec new_HD44780LCD))
    by (repeat split; discriminate).
  pose proof (entry_mode_roundtrip new_HD44780LCD 7 H) as R.
  split; [exact (proj1 (proj2 (proj2 R))) | exact (proj2 (proj2 (proj2 (proj2 R))))].
Defined.

(** ** Accessors *)

(** C9: the seven read-only accessors issue no bus write (their output is
    empty) and return the driver state they were given, every field
    included. *)
Theorem accessors_pure (s : HD44780LCD) :
  (after get_cursor_row s = s /\ trace get_cursor_row s = []) /\
  (after get_cursor_col s = s /\ trace get_cursor_col s = []) /\
  (after is_backlight_on s = s /\ trace is_backlight_on s = []) /\
  (after is_display_enabled s = s /\ trace is_display_enabled s = []) /\
  (after is_cursor_displayed s = s /\ trace is_cursor_displayed s = []) /\
  (after is_blinking_cursor_displayed s = s /\
   trace is_blinking_cursor_displayed s = []) /\
  (after get_entry_mode s = s /\ trace get_entry_mode s = []).
Proof.
  destruct s as [[a bl] loc ds cm]. repeat split; reflexivity.
Qed.

(** ** Display control *)

Lemma testbit_u16 (x n : Z) : 0 <= n < 16 -> Z.testbit (u16 x) n = Z.testbit x n.
Proof.
  intros H. unfold u16. change 65536 with (2 ^ 16).
  apply Z.mod_pow2_bits_low. lia.
Qed.

(** C10: [is_display_enabled] is true exactly when the display-control mask
    is nonzero; so after [enable_cursor_display] then [disable_display] it
    still answers true although the display-enable bit is clear. *)
Theorem is_display_enabled_whole_mask (s : HD44780LCD) :
  (value is_display_enabled s = true <-> displayState s <> 0) /\
  value is_display_enabled
    (after (enable_cursor_display ;; disable_display) s) = true /\
  Z.land (displayState (after (enable_cursor_display ;; disable_display) s))
    LCD_DISPLAY_ENABLE = 0.
Proof.
  split.
  - unfold is_display_enabled, value, bind, gets, ret. cbn [fst].
    rewrite negb_true_iff. apply Z.eqb_neq.
  - rewrite after_bind.
    unfold enable_cursor_display, disable_display.
    rewrite !after_bind, !after_send_byte.
    unfold is_display_enabled, value, after, bind, gets, modify, ret.
    cbn [fst snd displayState set_displayState].
    set (d := u16 (Z.land (u16 (Z.lor (displayState s) LCD_CURSOR_ENABLE))
                     (Z.lnot LCD_DISPLAY_ENABLE))).
    assert (H1 : Z.testbit d 1 = true).
    { unfold d. rewrite testbit_u16, Z.land_spec, testbit_u16, Z.lor_spec by lia.
      unfold LCD_CURSOR_ENABLE, LCD_DISPLAY_ENABLE.
      rewrite Z.lnot_spec by lia. cbn. rewrite orb_true_r. reflexivity. }
    assert (H2 : Z.testbit d 2 = false).
    { unfold d. rewrite testbit_u16, Z.land_spec by lia.
      unfold LCD_DISPLAY_ENABLE. rewrite Z.lnot_spec by lia.
      cbn. apply andb_false_r. }
    split.
    + apply negb_true_iff, Z.eqb_neq. intros Hd. rewrite Hd in H1.
      discriminate H1.
    + apply Z.bits_inj'. intros n Hn. rewrite Z.land_spec, Z.bits_0.
      unfold LCD_DISPLAY_ENABLE.
      destruct (Z.eq_dec n 2) as [-> | Hne].
      * rewrite H2. reflexivity.
      * change 4 with (2 ^ 2). rewrite Z.pow2_bits_eqb by lia.
        replace (2 =? n) with false by (symmetry; apply Z.eqb_neq; lia).
        apply andb_false_r.
Qed.

(** ** Framing of a byte on the bus *)

Lemma phase_layoutb_sound (nibble : Z) (backlight strobe rs : bool) (w : Z) :
  phase_layoutb nibble backlight strobe rs w = true ->
  phase_layout nibble backlight strobe rs w.
Proof.
  unfold phase_layoutb, phase_layout. rewrite !andb_true_iff.
  intros ((((((Hlo & Hhi) & Hn) & Hb) & He) & Hw) & Hr).
  apply Z.leb_le in Hlo. apply Z.ltb_lt in Hhi. apply Z.eqb_eq in Hn.
  apply Bool.eqb_prop in Hb, He, Hw, Hr. repeat split; assumption.
Qed.

Lemma in_byte_range (b : Z) :
  0 <= b < 256 -> In b (map Z.of_nat (seq 0 256)).
Proof.
  intros H. apply in_map_iff. exists (Z.to_nat b). split.
  - apply Z2Nat.id. lia.
  - apply in_seq. lia.
Qed.

Lemma frame_layoutb_all :
  forallb (fun b => frame_layoutb 0 b 0 && frame_layoutb 0 b 1 &&
                    frame_layoutb 8 b 0 && frame_layoutb 8 b 1)
    (map Z.of_nat (seq 0 256)) = true.
Proof. vm_compute. reflexivity. Qed.

Lemma frame_layoutb_ok (bl byte isData : Z) :
  0 <= byte < 256 -> isData = 0 \/ isData = 1 -> bl = 0 \/ bl = 8 ->
  frame_layoutb bl byte isData = true.
Proof.
  intros Hb Hrs Hbl.
  pose proof frame_layoutb_all as H. rewrite forallb_forall in H.
  specialize (H byte (in_byte_range byte Hb)).
  rewrite !andb_true_iff in H. destruct H as (((H00 & H01) & H80) & H81).
  destruct Hrs as [-> | ->], Hbl as [-> | ->]; assumption.
Qed.

(** C6: [send_byte] performs exactly six one-byte writes, the three phases
    of the high nibble and then the three of the low nibble; each byte
    carries the nibble in bits 7..4, the backlight in bit 3, the strobe in
    bit 2, 0 in bit 1 and [isData] in bit 0, and the strobe is raised in the
    middle phase only, nothing else differing. *)
Theorem send_byte_wire_frames (i : I2CInterface.t) (byte isData : Z)
  (Hbyte : 0 <= byte < 256)
  (Hrs : isData = 0 \/ isData = 1)
  (Hbl : I2CInterface.backlightMask i = 0 \/
         I2CInterface.backlightMask i = Z.shiftl 1 BACKLIGHT_ID) :
  exists h0 h1 h2 l0 l1 l2 : Z,
    trace (I2CInterface.send_byte byte isData) i =
      [I2CWrite (I2CInterface.addr i) h0; SleepFor 1;
       I2CWrite (I2CInterface.addr i) h1; SleepFor 1;
       I2CWrite (I2CInterface.addr i) h2; SleepFor 1;
       I2CWrite (I2CInterface.addr i) l0; SleepFor 1;
       I2CWrite (I2CInterface.addr i) l1; SleepFor 1;
       I2CWrite (I2CInterface.addr i) l2; SleepFor 1] /\
    bus_writes (trace (I2CInterface.send_byte byte isData) i) =
      [h0; h1; h2; l0; l1; l2] /\
    (let bl := value I2CInterface.is_backlight_on i in
     let rs := isData =? 1 in
     phase_layout (HI_NIBBLE byte) bl false rs h0 /\
     phase_layout (HI_NIBBLE byte) bl true rs h1 /\
     phase_layout (HI_NIBBLE byte) bl false rs h2 /\
     phase_layout (LO_NIBBLE byte) bl false rs l0 /\
     phase_layout (LO_NIBBLE byte) bl true rs l1 /\
     phase_layout (LO_NIBBLE byte) bl false rs l2) /\
    Z.lxor h1 h0 = Z.shiftl 1 EN_ID /\ h2 = h0 /\
    Z.lxor l1 l0 = Z.shiftl 1 EN_ID /\ l2 = l0.
Proof.
  destruct i as [a bl]. cbn [I2CInterface.backlightMask I2CInterface.addr] in *.
  change (Z.shiftl 1 BACKLIGHT_ID) with 8 in Hbl.
  pose proof (frame_layoutb_ok bl byte isData Hbyte Hrs Hbl) as H.
  unfold frame_layoutb, byte_frame, nibble_frame in H. cbn [app] in H.
  rewrite !andb_true_iff in H.
  destruct H as (((((((((P0 & P1) & P2) & P3) & P4) & P5) & X1) & E1) & X2) & E2).
  apply phase_layoutb_sound in P0, P1, P2, P3, P4, P5.
  apply Z.eqb_eq in X1, E1, X2, E2.
  do 6 eexists. split; [|split; [|split]].
  - unfold trace. rewrite send_byte_run. cbn [snd].
    unfold byte_frame, nibble_frame, paced.
    cbn [app flat_map I2CInterface.addr I2CInterface.backlightMask].
    reflexivity.
  - reflexivity.
  - cbv zeta.
    change (value I2CInterface.is_backlight_on (I2CInterface.mk a bl))
      with (negb (bl =? 0)).
    repeat (split; [assumption|]); assumption.
  - repeat (split; [assumption|]); assumption.
Qed.

Lemma send_byte_wire_frames_witness :
  exists h0 h1 h2 l0 l1 l2 : Z,
    bus_writes (trace (I2CInterface.send_byte 0x41 1)
                  (I2CInterface.mk 0x4E 8)) = [h0; h1; h2; l0; l1; l2] /\
    Z.lxor h1 h0 = Z.shiftl 1 EN_ID /\ h2 = h0.
Proof.
  assert (Hb : 0 <= 0x41 < 256) by lia.
  assert (Hrs : 1 = 0 \/ 1 = 1) by (right; reflexivity).
  assert (Hbl : I2CInterface.backlightMask (I2CInterface.mk 0x4E 8) = 0 \/
                I2CInterface.backlightMask (I2CInterface.mk 0x4E 8) =
                Z.shiftl 1 BACKLIGHT_ID) by (right; reflexivity).
  destruct (send_byte_wire_frames (I2CInterface.mk 0x4E 8) 0x41 1 Hb Hrs Hbl)
    as (h0 & h1 & h2 & l0 & l1 & l2 & _ & Hw & _ & Hx & He & _).
  exists h0, h1, h2, l0, l1, l2. repeat split; assumption.
Defined.

(** ** What each method does to the fields *)

Lemma Z_range_forallb (P : Z -> bool) (n : nat) :
  forallb P (map Z.of_nat (seq 0 n)) = true ->
  forall b : Z, 0 <= b < Z.of_nat n -> P b = true.
Proof.
  intros H b Hb. rewrite forallb_forall in H. apply H.
  apply in_map_iff. exists (Z.to_nat b). split.
  - apply Z2Nat.id. lia.
  - apply in_seq. lia.
Qed.

Lemma set_cursor_pos_run (r c : Z) (s : HD44780LCD) :
  set_cursor_pos r c s =
  if (r >? 1) || (c >? LCD_LINE_SIZE) then (tt, s, [])
  else
    let s' := set_cursorLoc
      (u32 ((if negb (r =? 0) then LCD_ORIG_ADDR_SECOND
             else LCD_ORIG_ADDR_FIRST) + c)) s in
    (tt, s', instruction_write s' (u8 (Z.lor LCD_SET_DDRAMADDR (cursorLoc s')))).
Proof.
  unfold set_cursor_pos.
  destruct ((r >? 1) || (c >? LCD_LINE_SIZE)); [reflexivity|].
  unfold update_display_cursor_pos, instruction_write, bind, modify, gets.
  cbv zeta. rewrite on_con_send_byte_run. unfold trace.
  rewrite on_con_send_byte_run. reflexivity.
Qed.

Lemma send_data_run (byte : Z) (s : HD44780LCD) :
  send_data byte s =
  (tt,
   set_cursorLoc
     (if negb (Z.land (cursorMovement s) LCD_CURSOR_POS_INC =? 0)
      then next_loc (cursorLoc s) else prev_loc (cursorLoc s)) s,
   data_write s byte).
Proof.
  unfold send_data, data_write, bind, gets, trace.
  rewrite on_con_send_byte_run.
  destruct (negb (Z.land (cursorMovement s) LCD_CURSOR_POS_INC =? 0)).
  - rewrite inc_cursor_loc_run, !app_nil_r. reflexivity.
  - rewrite dec_cursor_loc_run, !app_nil_r. reflexivity.
Qed.

Lemma for_each_send_byte {A} (l : list A) (g : A -> Z) (d : Z)
  (s : HD44780LCD) :
  for_each l (fun x => on_con (I2CInterface.send_byte (g x) d)) s =
  (tt, s, flat_map (fun x => trace (on_con (I2CInterface.send_byte (g x) d)) s) l).
Proof.
  induction l as [|x l IH]; [reflexivity|].
  cbn [for_each flat_map]. unfold bind, trace at 1.
  rewrite on_con_send_byte_run, IH. reflexivity.
Qed.

Lemma addr_bound_next (a : Z) : addr_bound (next_loc a).
Proof.
  pose proof (next_loc_valid a) as H.
  unfold valid_addr, in_row0, in_row1, addr_bound in *. lia.
Qed.

Lemma addr_bound_prev (a : Z) : addr_bound a -> addr_bound (prev_loc a).
Proof.
  unfold addr_bound, prev_loc, LCD_ORIG_ADDR_FIRST, LCD_ORIG_ADDR_SECOND,
    LCD_LINE_SIZE. intros H.
  destruct (Z.eqb_spec a 0); [lia|].
  destruct (Z.eqb_spec a 64); [lia|].
  rewrite u32_small by lia. lia.
Qed.

Lemma row_col_of_bounded (s : HD44780LCD) :
  addr_bound (cursorLoc s) ->
  let r := value get_cursor_row s in
  let c := value get_cursor_col s in
  (r = 0 \/ r = 1) /\ 0 <= c <= LCD_LINE_SIZE /\
  (if negb (r =? 0) then LCD_ORIG_ADDR_SECOND else LCD_ORIG_ADDR_FIRST) + c
    = cursorLoc s.
Proof.
  unfold addr_bound, get_cursor_row, get_cursor_col, value, bind, gets, ret,
    LCD_ORIG_ADDR_FIRST, LCD_ORIG_ADDR_SECOND, LCD_LINE_SIZE.
  cbn [fst]. intros H.
  destruct (Z.geb_spec (cursorLoc s) 64) as [Hge | Hlt]; cbn [Z.eqb negb];
    rewrite u32_small by lia; lia.
Qed.

(** Re-seating the cursor where it already is changes no field and issues
    one DDRAM-address instruction. *)
Lemma set_cursor_pos_restore (s : HD44780LCD) :
  addr_bound (cursorLoc s) ->
  set_cursor_pos (value get_cursor_row s) (value get_cursor_col s) s =
  (tt, s, instruction_write s (Z.lor LCD_SET_DDRAMADDR (cursorLoc s))).
Proof.
  intros Hb. destruct (row_col_of_bounded s Hb) as (Hr & Hc & Hloc).
  rewrite set_cursor_pos_run.
  replace ((value get_cursor_row s >? 1)
           || (value get_cursor_col s >? LCD_LINE_SIZE)) with false
    by (symmetry; apply orb_false_iff; split; apply gtb_false; lia).
  cbv zeta. rewrite Hloc.
  assert (Hs : set_cursorLoc (u32 (cursorLoc s)) s = s).
  { rewrite u32_small.
    - destruct s; reflexivity.
    - unfold addr_bound, LCD_ORIG_ADDR_FIRST, LCD_ORIG_ADDR_SECOND,
        LCD_LINE_SIZE in Hb. lia. }
  rewrite Hs. f_equal. f_equal.
  assert (Hall : forallb (fun a => u8 (Z.lor LCD_SET_DDRAMADDR a)
                                   =? Z.lor LCD_SET_DDRAMADDR a)
                   (map Z.of_nat (seq 0 105)) = true)
    by (vm_compute; reflexivity).
  apply Z.eqb_eq. apply (Z_range_forallb _ 105 Hall).
  unfold addr_bound, LCD_ORIG_ADDR_FIRST, LCD_ORIG_ADDR_SECOND,
    LCD_LINE_SIZE in Hb. lia.
Qed.

Lemma create_custom_char_run (loc : Z) (glyph : list Z) (s : HD44780LCD) :
  addr_bound (cursorLoc s) ->
  create_custom_char loc glyph s =
  (tt, s,
   instruction_write s (u8 (Z.lor LCD_SET_CGRAMADDR (u32 (Z.shiftl loc 3)))) ++
   flat_map (fun i => data_write s (nth i glyph 0)) (seq 0 8) ++
   instruction_write s (Z.lor LCD_SET_DDRAMADDR (cursorLoc s))).
Proof.
  intros Hb. unfold create_custom_char, bind at 1.
  rewrite on_con_send_byte_run. unfold bind at 1.
  rewrite for_each_send_byte.
  assert (Hrow : forall (s0 : HD44780LCD),
            get_cursor_row s0 = (value get_cursor_row s0, s0, []))
    by reflexivity.
  assert (Hcol : forall (s0 : HD44780LCD),
            get_cursor_col s0 = (value get_cursor_col s0, s0, []))
    by reflexivity.
  unfold bind. rewrite Hrow, Hcol, (set_cursor_pos_restore s Hb).
  unfold instruction_write, data_write, trace.
  rewrite on_con_send_byte_run. reflexivity.
Qed.

Lemma mask3_cases (d : Z) :
  0 <= d < 8 ->
  d = 0 \/ d = 1 \/ d = 2 \/ d = 3 \/ d = 4 \/ d = 5 \/ d = 6 \/ d = 7.
Proof. lia. Qed.

Ltac by_mask3 d H :=
  destruct (mask3_cases d H) as [-> | [-> | [-> | [-> | [-> | [-> | [-> | ->]]]]]]];
  vm_compute; split; congruence.

Lemma display_mask_bounds (d : Z) :
  0 <= d < 8 ->
  (0 <= u16 (Z.lor d LCD_DISPLAY_ENABLE) < 8 /\
   0 <= u16 (Z.land d (Z.lnot LCD_DISPLAY_ENABLE)) < 8 /\
   0 <= u16 (Z.lxor d LCD_DISPLAY_ENABLE) < 8) /\
  (0 <= u16 (Z.lor d LCD_CURSOR_ENABLE) < 8 /\
   0 <= u16 (Z.land d (Z.lnot LCD_CURSOR_ENABLE)) < 8 /\
   0 <= u16 (Z.lxor d LCD_CURSOR_ENABLE) < 8) /\
  (0 <= u16 (Z.lor d LCD_BLINK_ENABLE) < 8 /\
   0 <= u16 (Z.land d (Z.lnot LCD_BLINK_ENABLE)) < 8 /\
   0 <= u16 (Z.lxor d LCD_BLINK_ENABLE) < 8).
Proof.
  intros H.
  destruct (mask3_cases d H)
    as [-> | [-> | [-> | [-> | [-> | [-> | [-> | ->]]]]]]];
    vm_compute; repeat split; congruence.
Qed.

Lemma send_data_inv (byte : Z) (s : HD44780LCD) :
  driver_inv s -> driver_inv (after (send_data byte) s).
Proof.
  intros Hs. unfold after. rewrite send_data_run. cbn [fst snd].
  destruct Hs as (Ha & Hrest). split; [|exact Hrest].
  cbn [cursorLoc set_cursorLoc].
  destruct (negb (Z.land (cursorMovement s) LCD_CURSOR_POS_INC =? 0)).
  - apply addr_bound_next.
  - apply addr_bound_prev. exact Ha.
Qed.

Lemma send_buffer_inv (buf : list Z) (s : HD44780LCD) :
  driver_inv s -> driver_inv (after (send_buffer buf) s).
Proof.
  unfold send_buffer. revert s.
  induction buf as [|b buf IH]; intros s Hs; [exact Hs|].
  cbn [for_each]. rewrite after_bind. apply IH, send_data_inv, Hs.
Qed.

Lemma set_cursor_pos_inv (r c : Z) (s : HD44780LCD) :
  is_u32 r -> is_u32 c ->
  driver_inv s -> driver_inv (after (set_cursor_pos r c) s).
Proof.
  unfold is_u32. intros Hr Hc Hs. unfold after. rewrite set_cursor_pos_run.
  destruct (Z.gtb_spec r 1) as [Hr1 | Hr1]; cbn [orb]; [exact Hs|].
  destruct (Z.gtb_spec c LCD_LINE_SIZE) as [Hc1 | Hc1]; [exact Hs|].
  cbv zeta. cbn [fst snd].
  destruct Hs as (Ha & Hrest). split; [|exact Hrest].
  cbn [cursorLoc set_cursorLoc].
  unfold addr_bound, LCD_ORIG_ADDR_FIRST, LCD_ORIG_ADDR_SECOND,
    LCD_LINE_SIZE in *.
  destruct (Z.eqb_spec r 0); cbn [negb]; rewrite u32_small by lia; lia.
Qed.

Lemma putc_inv (c : Z) (s : HD44780LCD) :
  driver_inv s -> driver_inv (after (_putc c) s).
Proof.
  intros Hs. unfold _putc.
  rewrite after_bind.
  replace (after get_cursor_row s) with s by (destruct s; reflexivity).
  rewrite after_bind.
  replace (after get_cursor_col s) with s by (destruct s; reflexivity).
  destruct (row_col_of_bounded s (proj1 Hs)) as (Hr & Hc & _).
  unfold LCD_LINE_SIZE in Hc.
  destruct (c =? 10); [|destruct (c =? 13)]; rewrite after_bind.
  - replace (after (ret 0) (after (set_cursor_pos
               (u32 (Z.lxor (value get_cursor_row s) 1))
               (value get_cursor_col s)) s))
      with (after (set_cursor_pos (u32 (Z.lxor (value get_cursor_row s) 1))
                     (value get_cursor_col s)) s) by reflexivity.
    apply set_cursor_pos_inv; unfold is_u32; [| lia | exact Hs].
    destruct Hr as [-> | ->]; vm_compute; split; congruence.
  - replace (after (ret 0) (after (set_cursor_pos (value get_cursor_row s) 0)
                              s))
      with (after (set_cursor_pos (value get_cursor_row s) 0) s)
      by reflexivity.
    apply set_cursor_pos_inv; unfold is_u32; [lia | lia | exact Hs].
  - replace (after (ret 0) (after (send_data (u8 c)) s))
      with (after (send_data (u8 c)) s) by reflexivity.
    apply send_data_inv, Hs.
Qed.

Ltac open_inv s IH :=
  destruct s as [[? ?] ? ? ?];
  destruct IH as (? & ? & ? & ? & ?);
  cbn [con cursorLoc displayState cursorMovement
       I2CInterface.backlightMask I2CInterface.addr] in *.

Ltac display_mask_case s IH :=
  open_inv s IH;
  split; [assumption | split; [assumption | split; [| split; assumption]]];
  match goal with
  | H : 0 <= ?d < 8 |- 0 <= displayState _ < 8 =>
      apply (display_mask_bounds d H)
  end.

Ltac backlight_case s IH :=
  open_inv s IH;
  split; [assumption | split;
    [| split; [assumption | split; assumption]]];
  match goal with
  | H : _ \/ _ |- _ => destruct H as [-> | ->]
  end;
  vm_compute; first [left; reflexivity | right; reflexivity].

Ltac entry_mode_case s IH :=
  open_inv s IH;
  split; [assumption | split; [assumption | split; [assumption | split;
    [vm_compute; split; congruence | assumption]]]].

Ltac unchanged_case s IH :=
  destruct s as [[? ?] ? ? ?]; exact IH.

(** Every state a client can reach satisfies the field bounds. *)
Lemma reachable_inv (s : HD44780LCD) : reachable s -> driver_inv s.
Proof.
  induction 1 as [|s c Hreach IH Hwt].
  - unfold driver_inv, addr_bound. vm_compute.
    repeat split; try congruence; left; split; congruence.
  - destruct c; cbn [run_call well_typed] in *.
    + (* initialize *)
      open_inv s IH.
      split; [assumption | split; [assumption | split;
        [| split; [| assumption]]]];
        vm_compute; split; congruence.
    + apply send_data_inv, IH.
    + apply send_buffer_inv, IH.
    + unfold after. rewrite create_custom_char_run by apply IH. exact IH.
    + backlight_case s IH.
    + backlight_case s IH.
    + backlight_case s IH.
    + unchanged_case s IH.
    + entry_mode_case s IH.
    + entry_mode_case s IH.
    + entry_mode_case s IH.
    + entry_mode_case s IH.
    + unchanged_case s IH.
    + unchanged_case s IH.
    + display_mask_case s IH.
    + display_mask_case s IH.
    + display_mask_case s IH.
    + unchanged_case s IH.
    + (* set_cursor_home *)
      open_inv s IH.
      split; [| split; [assumption | split; [assumption | split; assumption]]].
      left. vm_compute. split; congruence.
    + unfold move_cursor_left.
      rewrite after_bind, after_send_byte, after_dec_cursor_loc.
      destruct IH as (Ha & Hrest). split; [|exact Hrest].
      apply addr_bound_prev. exact Ha.
    + unfold move_cursor_right.
      rewrite after_bind, after_send_byte, after_inc_cursor_loc.
      destruct IH as (Ha & Hrest). split; [|exact Hrest].
      apply addr_bound_next.
    + apply set_cursor_pos_inv; [apply Hwt | apply Hwt | exact IH].
    + unchanged_case s IH.
    + unchanged_case s IH.
    + display_mask_case s IH.
    + display_mask_case s IH.
    + display_mask_case s IH.
    + unchanged_case s IH.
    + display_mask_case s IH.
    + display_mask_case s IH.
    + display_mask_case s IH.
    + unchanged_case s IH.
    + unchanged_case s IH.
    + unchanged_case s IH.
    + (* get_stream *)
      open_inv s IH.
      split; [assumption | split; [assumption | split;
        [| split; [| assumption]]]];
        vm_compute; split; congruence.
    + unfold discard. rewrite after_bind. apply (putc_inv c s IH).
    + unchanged_case s IH.
Qed.

(** ** Loading a glyph *)

Lemma flat_map_nth_8 {B} (f : Z -> list B) (glyph : list Z) :
  length glyph = 8%nat ->
  flat_map (fun i => f (nth i glyph 0)) (seq 0 8) = flat_map f glyph.
Proof.
  intros H.
  do 8 (destruct glyph as [|? glyph]; [discriminate H|]).
  destruct glyph; [reflexivity | discriminate H].
Qed.

(** C8: on any state the public interface can produce,
    [create_custom_char 3 pattern] issues the instruction selecting CGRAM
    address 24, then the eight pattern bytes as data writes in order, then
    one DDRAM-address instruction for the current address; the stored row
    and column are what they were. *)
Theorem create_custom_char_slot3 (s : HD44780LCD) (pattern : list Z)
  (Hs : reachable s) (Hlen : length pattern = 8%nat) :
  trace (create_custom_char 3 pattern) s =
    instruction_write s (Z.lor LCD_SET_CGRAMADDR (3 * 8)) ++
    flat_map (data_write s) pattern ++
    instruction_write s (Z.lor LCD_SET_DDRAMADDR (cursorLoc s)) /\
  value get_cursor_row (after (create_custom_char 3 pattern) s) =
    value get_cursor_row s /\
  value get_cursor_col (after (create_custom_char 3 pattern) s) =
    value get_cursor_col s.
Proof.
  pose proof (reachable_inv s Hs) as (Hb & _).
  unfold trace, after. rewrite (create_custom_char_run 3 pattern s Hb).
  cbn [fst snd]. repeat split.
  rewrite (flat_map_nth_8 (data_write s) pattern Hlen). reflexivity.
Qed.

Lemma create_custom_char_slot3_witness :
  bus_writes (trace (create_custom_char 3 [14; 17; 17; 17; 14; 0; 0; 31])
                (after move_cursor_right new_HD44780LCD)) =
  bus_writes
    (instruction_write (after move_cursor_right new_HD44780LCD) 0x58 ++
     flat_map (data_write (after move_cursor_right new_HD44780LCD))
       [14; 17; 17; 17; 14; 0; 0; 31] ++
     instruction_write (after move_cursor_right new_HD44780LCD) 0x81).
Proof.
  assert (Hr : reachable (after (run_call Move_cursor_right) new_HD44780LCD))
    by (apply reach_call; [apply reach_new | exact I]).
  pose proof (create_custom_char_slot3
                (after (run_call Move_cursor_right) new_HD44780LCD)
                [14; 17; 17; 17; 14; 0; 0; 31] Hr eq_refl) as (Ht & _).
  exact (f_equal bus_writes Ht).
Defined.

(** * Further properties of the driver *)

(** ** Rejected and accepted positions *)

(** X1: a row above 1 or a column above 40 makes [set_cursor_pos] return at
    once: the state is the one given and nothing is sent. *)
Theorem set_cursor_pos_rejects (s : HD44780LCD) (r c : Z)
  (H : 1 < r \/ LCD_LINE_SIZE < c) :
  set_cursor_pos r c s = (tt, s, []).
Proof.
  rewrite set_cursor_pos_run.
  replace ((r >? 1) || (c >? LCD_LINE_SIZE)) with true; [reflexivity|].
  symmetry. apply orb_true_iff.
  destruct H as [H | H]; [left | right]; apply gtb_true; exact H.
Qed.

Lemma set_cursor_pos_rejects_witness :
  set_cursor_pos 2 0 new_HD44780LCD = (tt, new_HD44780LCD, []) /\
  set_cursor_pos 1 41 new_HD44780LCD = (tt, new_HD44780LCD, []).
Proof.
  split.
  - apply set_cursor_pos_rejects. left. lia.
  - apply set_cursor_pos_rejects. right. unfold LCD_LINE_SIZE. lia.
Defined.

Lemma lor_ddram_small (a : Z) :
  0 <= a < 105 ->
  u8 (Z.lor LCD_SET_DDRAMADDR a) = 128 + a /\
  Z.lor LCD_SET_DDRAMADDR a = 128 + a.
Proof.
  intros H.
  assert (Hall : forallb (fun a => (u8 (Z.lor LCD_SET_DDRAMADDR a) =? 128 + a)
                                   && (Z.lor LCD_SET_DDRAMADDR a =? 128 + a))
                   (map Z.of_nat (seq 0 105)) = true)
    by (vm_compute; reflexivity).
  pose proof (Z_range_forallb _ 105 Hall a) as Ha.
  cbv beta in Ha. rewrite andb_true_iff, !Z.eqb_eq in Ha. apply Ha. lia.
Qed.

Lemma set_cursor_pos_in_range (s : HD44780LCD) (r c : Z)
  (Hr : r = 0 \/ r = 1) (Hc : 0 <= c <= LCD_LINE_SIZE) :
  after (set_cursor_pos r c) s = set_cursorLoc (64 * r + c) s /\
  trace (set_cursor_pos r c) s = instruction_write s (128 + (64 * r + c)).
Proof.
  unfold LCD_LINE_SIZE in Hc.
  unfold after, trace. rewrite set_cursor_pos_run.
  replace ((r >? 1) || (c >? LCD_LINE_SIZE)) with false
    by (symmetry; apply orb_false_iff; unfold LCD_LINE_SIZE;
        split; apply gtb_false; lia).
  cbv zeta. cbn [fst snd cursorLoc set_cursorLoc].
  assert (Hloc : u32 ((if negb (r =? 0) then LCD_ORIG_ADDR_SECOND
                       else LCD_ORIG_ADDR_FIRST) + c) = 64 * r + c).
  { unfold LCD_ORIG_ADDR_SECOND, LCD_ORIG_ADDR_FIRST.
    destruct Hr as [-> | ->]; cbn [Z.eqb negb]; rewrite u32_small; lia. }
  rewrite Hloc. split; [reflexivity|].
  destruct s as [i loc ds cm]. cbn [cursorLoc set_cursorLoc].
  assert (Hrange : 0 <= 64 * r + c < 105) by lia.
  rewrite (proj1 (lor_ddram_small (64 * r + c) Hrange)).
  reflexivity.
Qed.

(** X2: for row 0 or 1 and a column from 0 to 40 inclusive,
    [set_cursor_pos] stores 0x40 times the row plus the column, touches no
    other field, and sends exactly one instruction, 0x80 plus that
    address. *)
Theorem set_cursor_pos_accepts (s : HD44780LCD) (r c : Z)
  (Hr : r = 0 \/ r = 1) (Hc : 0 <= c <= LCD_LINE_SIZE) :
  after (set_cursor_pos r c) s = set_cursorLoc (64 * r + c) s /\
  trace (set_cursor_pos r c) s = instruction_write s (128 + (64 * r + c)).
Proof. exact (set_cursor_pos_in_range s r c Hr Hc). Qed.

Lemma set_cursor_pos_accepts_witness :
  after (set_cursor_pos 1 40) new_HD44780LCD =
    set_cursorLoc (64 * 1 + 40) new_HD44780LCD /\
  trace (set_cursor_pos 1 40) new_HD44780LCD =
    instruction_write new_HD44780LCD (128 + (64 * 1 + 40)).
Proof.
  apply set_cursor_pos_accepts; [right; reflexivity | unfold LCD_LINE_SIZE; lia].
Defined.

(** ** Stepping the cursor *)

Lemma valid_addrb_spec (a : Z) : valid_addrb a = true <-> valid_addr a.
Proof.
  unfold valid_addrb, valid_addr, in_row0, in_row1.
  rewrite orb_true_iff, !andb_true_iff, !Z.leb_le, !Z.ltb_lt. reflexivity.
Qed.

Lemma valid_addr_range (a : Z) : valid_addr a -> 0 <= a < 105.
Proof.
  unfold valid_addr, in_row0, in_row1, LCD_ORIG_ADDR_FIRST,
    LCD_ORIG_ADDR_SECOND, LCD_LINE_SIZE. lia.
Qed.

Lemma prev_next_valid (a : Z) : valid_addr a -> prev_loc (next_loc a) = a.
Proof.
  intros Hv.
  assert (Hall : forallb (fun a => implb (valid_addrb a)
                                     (prev_loc (next_loc a) =? a))
                   (map Z.of_nat (seq 0 105)) = true)
    by (vm_compute; reflexivity).
  pose proof (Z_range_forallb _ 105 Hall a (valid_addr_range a Hv)) as H.
  cbv beta in H. rewrite (proj2 (valid_addrb_spec a) Hv) in H.
  apply Z.eqb_eq. exact H.
Qed.

Lemma next_prev_valid (a : Z) : valid_addr a -> next_loc (prev_loc a) = a.
Proof.
  intros Hv.
  assert (Hall : forallb (fun a => implb (valid_addrb a)
                                     (next_loc (prev_loc a) =? a))
                   (map Z.of_nat (seq 0 105)) = true)
    by (vm_compute; reflexivity).
  pose proof (Z_range_forallb _ 105 Hall a (valid_addr_range a Hv)) as H.
  cbv beta in H. rewrite (proj2 (valid_addrb_spec a) Hv) in H.
  apply Z.eqb_eq. exact H.
Qed.

Lemma prev_loc_valid (a : Z) : valid_addr a -> valid_addr (prev_loc a).
Proof.
  intros Hv.
  assert (Hall : forallb (fun a => implb (valid_addrb a)
                                     (valid_addrb (prev_loc a)))
                   (map Z.of_nat (seq 0 105)) = true)
    by (vm_compute; reflexivity).
  pose proof (Z_range_forallb _ 105 Hall a (valid_addr_range a Hv)) as H.
  cbv beta in H. rewrite (proj2 (valid_addrb_spec a) Hv) in H.
  apply valid_addrb_spec. exact H.
Qed.

Lemma set_cursorLoc_twice (a b : Z) (s : HD44780LCD) :
  set_cursorLoc a (set_cursorLoc b s) = set_cursorLoc a s.
Proof. destruct s. reflexivity. Qed.

Lemma set_cursorLoc_same (s : HD44780LCD) : set_cursorLoc (cursorLoc s) s = s.
Proof. destruct s. reflexivity. Qed.

Lemma after_move_cursor_right (s : HD44780LCD) :
  after move_cursor_right s = set_cursorLoc (next_loc (cursorLoc s)) s.
Proof.
  unfold move_cursor_right.
  rewrite after_bind, after_send_byte, after_inc_cursor_loc. reflexivity.
Qed.

Lemma after_move_cursor_left (s : HD44780LCD) :
  after move_cursor_left s = set_cursorLoc (prev_loc (cursorLoc s)) s.
Proof.
  unfold move_cursor_left.
  rewrite after_bind, after_send_byte, after_dec_cursor_loc. reflexivity.
Qed.

(** X3: when the stored address is a cell of row 0 or row 1,
    [move_cursor_right] followed by [move_cursor_left] gives back the state
    it started from. *)
Theorem move_right_then_left_restores (s : HD44780LCD)
  (Hv : valid_addr (cursorLoc s)) :
  after (move_cursor_right ;; move_cursor_left) s = s.
Proof.
  rewrite after_bind, after_move_cursor_left, after_move_cursor_right.
  cbn [cursorLoc set_cursorLoc].
  destruct s as [i loc ds cm]. cbn [cursorLoc set_cursorLoc con
    displayState cursorMovement] in *.
  rewrite (prev_next_valid loc Hv). reflexivity.
Qed.

Lemma move_right_then_left_restores_witness :
  after (move_cursor_right ;; move_cursor_left)
    (set_cursorLoc 39 new_HD44780LCD) = set_cursorLoc 39 new_HD44780LCD.
Proof.
  apply move_right_then_left_restores.
  left. vm_compute. split; [discriminate | reflexivity].
Defined.

(** X4: when the stored address is a cell of row 0 or row 1,
    [move_cursor_left] followed by [move_cursor_right] gives back the state
    it started from. *)
Theorem move_left_then_right_restores (s : HD44780LCD)
  (Hv : valid_addr (cursorLoc s)) :
  after (move_cursor_left ;; move_cursor_right) s = s.
Proof.
  rewrite after_bind, after_move_cursor_right, after_move_cursor_left.
  cbn [cursorLoc set_cursorLoc].
  destruct s as [i loc ds cm]. cbn [cursorLoc set_cursorLoc con
    displayState cursorMovement] in *.
  rewrite (next_prev_valid loc Hv). reflexivity.
Qed.

Lemma move_left_then_right_restores_witness :
  after (move_cursor_left ;; move_cursor_right) new_HD44780LCD
    = new_HD44780LCD.
Proof.
  apply move_left_then_right_restores.
  left. vm_compute. split; [discriminate | reflexivity].
Defined.

(** X5: [move_cursor_right] always ends on a cell of row 0 or row 1,
    whatever the stored address was, an address in the gap included. *)
Theorem move_cursor_right_lands_in_row (s : HD44780LCD) :
  valid_addr (cursorLoc (after move_cursor_right s)).
Proof.
  rewrite after_move_cursor_right. destruct s as [i loc ds cm].
  cbn [cursorLoc set_cursorLoc]. apply next_loc_valid.
Qed.

(** X6: [move_cursor_left] wraps from the first cell of row 0 to the last of
    row 1 and from the first cell of row 1 to the last of row 0, and steps
    back by one elsewhere; from a cell of a row it ends on a cell of a row. *)
Theorem move_cursor_left_wraps (s : HD44780LCD)
  (Hv : valid_addr (cursorLoc s)) :
  cursorLoc (after move_cursor_left s) =
    (if cursorLoc s =? 0 then 103
     else if cursorLoc s =? 64 then 39 else cursorLoc s - 1) /\
  valid_addr (cursorLoc (after move_cursor_left s)).
Proof.
  rewrite after_move_cursor_left. destruct s as [i loc ds cm].
  cbn [cursorLoc set_cursorLoc] in *. split.
  - unfold prev_loc, LCD_ORIG_ADDR_FIRST, LCD_ORIG_ADDR_SECOND, LCD_LINE_SIZE.
    destruct (Z.eqb_spec loc 0); [reflexivity|].
    destruct (Z.eqb_spec loc 64); [reflexivity|].
    apply u32_small. pose proof (valid_addr_range loc Hv). lia.
  - apply prev_loc_valid. exact Hv.
Qed.

Lemma move_cursor_left_wraps_witness :
  cursorLoc (after move_cursor_left new_HD44780LCD) = 103.
Proof.
  assert (Hv : valid_addr (cursorLoc new_HD44780LCD)).
  { left. vm_compute. split; [discriminate | reflexivity]. }
  exact (proj1 (move_cursor_left_wraps new_HD44780LCD Hv)).
Defined.

(** ** What holds of every reachable state *)

(** X7: in every state the public interface can produce, the stored address
    is within 0x00..0x28 or 0x40..0x68, the backlight mask is 0 or 8, the
    display-control mask is below 8, the entry-mode mask is below 4, and the
    bus address is the default one. *)
Theorem reachable_fields_bounded (s : HD44780LCD) (Hs : reachable s) :
  (0 <= cursorLoc s <= 0x28 \/ 0x40 <= cursorLoc s <= 0x68) /\
  (I2CInterface.backlightMask (con s) = 0 \/
   I2CInterface.backlightMask (con s) = 8) /\
  0 <= displayState s < 8 /\
  0 <= cursorMovement s < 4 /\
  I2CInterface.addr (con s) = 0x4E.
Proof. exact (reachable_inv s Hs). Qed.

Lemma reachable_fields_bounded_witness :
  0 <= displayState (after (run_call Toggle_cursor_display)
                       (after (run_call Initialize) new_HD44780LCD)) < 8.
Proof.
  assert (Hr : reachable (after (run_call Toggle_cursor_display)
                            (after (run_call Initialize) new_HD44780LCD))).
  { apply reach_call; [apply reach_call; [apply reach_new | exact I] | exact I]. }
  exact (proj1 (proj2 (proj2 (reachable_fields_bounded _ Hr)))).
Defined.

(** X8: in every reachable state the row is 0 or 1, the column is between 0
    and 40, and the stored address is 0x40 times the row plus the column. *)
Theorem row_col_decompose (s : HD44780LCD) (Hs : reachable s) :
  (value get_cursor_row s = 0 \/ value get_cursor_row s = 1) /\
  0 <= value get_cursor_col s <= 40 /\
  cursorLoc s = 64 * value get_cursor_row s + value get_cursor_col s.
Proof.
  destruct (row_col_of_bounded s (proj1 (reachable_inv s Hs)))
    as (Hr & Hc & Hloc).
  unfold LCD_LINE_SIZE, LCD_ORIG_ADDR_SECOND, LCD_ORIG_ADDR_FIRST in *.
  split; [exact Hr | split; [exact Hc |]].
  destruct Hr as [Hr | Hr]; rewrite Hr in *; cbn [Z.eqb negb] in Hloc; lia.
Qed.

Lemma row_col_decompose_witness :
  cursorLoc (after (run_call (Set_cursor_pos 1 7)) new_HD44780LCD) =
  64 * value get_cursor_row
         (after (run_call (Set_cursor_pos 1 7)) new_HD44780LCD) +
  value get_cursor_col (after (run_call (Set_cursor_pos 1 7)) new_HD44780LCD).
Proof.
  assert (Hr : reachable (after (run_call (Set_cursor_pos 1 7))
                            new_HD44780LCD)).
  { apply reach_call; [apply reach_new |].
    cbn [well_typed]. unfold is_u32. split; lia. }
  exact (proj2 (proj2 (row_col_decompose _ Hr))).
Defined.

(** X9: in every reachable state, passing the current row and column back
    to [set_cursor_pos] leaves the state as it is and sends the one
    instruction 0x80 plus the stored address. *)
Theorem set_cursor_pos_current (s : HD44780LCD) (Hs : reachable s) :
  set_cursor_pos (value get_cursor_row s) (value get_cursor_col s) s =
  (tt, s, instruction_write s (128 + cursorLoc s)).
Proof.
  pose proof (proj1 (reachable_inv s Hs)) as Hb.
  rewrite (set_cursor_pos_restore s Hb).
  assert (Hrange : 0 <= cursorLoc s < 105).
  { unfold addr_bound, LCD_ORIG_ADDR_FIRST, LCD_ORIG_ADDR_SECOND,
      LCD_LINE_SIZE in Hb. lia. }
  rewrite (proj2 (lor_ddram_small (cursorLoc s) Hrange)). reflexivity.
Qed.

Lemma set_cursor_pos_current_witness :
  set_cursor_pos (value get_cursor_row new_HD44780LCD)
    (value get_cursor_col new_HD44780LCD) new_HD44780LCD =
  (tt, new_HD44780LCD,
   instruction_write new_HD44780LCD (128 + cursorLoc new_HD44780LCD)).
Proof. exact (set_cursor_pos_current new_HD44780LCD reach_new). Defined.

(** ** Clients that stay below column 40 *)

Lemma valid_addr_bound (a : Z) : valid_addr a -> addr_bound a.
Proof.
  unfold valid_addr, in_row0, in_row1, addr_bound. lia.
Qed.

Lemma send_data_valid (byte : Z) (s : HD44780LCD) :
  valid_addr (cursorLoc s) ->
  valid_addr (cursorLoc (after (send_data byte) s)).
Proof.
  intros Hv. unfold after. rewrite send_data_run.
  cbn [fst snd cursorLoc set_cursorLoc]. destruct s as [i loc ds cm].
  cbn [cursorLoc set_cursorLoc cursorMovement] in *.
  destruct (negb (Z.land cm LCD_CURSOR_POS_INC =? 0)).
  - apply next_loc_valid.
  - apply prev_loc_valid, Hv.
Qed.

Lemma send_buffer_valid (buf : list Z) (s : HD44780LCD) :
  valid_addr (cursorLoc s) ->
  valid_addr (cursorLoc (after (send_buffer buf) s)).
Proof.
  unfold send_buffer. revert s.
  induction buf as [|b buf IH]; intros s Hv; [exact Hv|].
  cbn [for_each]. rewrite after_bind. apply IH, send_data_valid, Hv.
Qed.

Lemma set_cursor_pos_valid (r c : Z) (s : HD44780LCD) :
  is_u32 r -> is_u32 c -> c <> LCD_LINE_SIZE ->
  valid_addr (cursorLoc s) ->
  valid_addr (cursorLoc (after (set_cursor_pos r c) s)).
Proof.
  unfold is_u32. intros Hr Hc Hne Hv. unfold after.
  rewrite set_cursor_pos_run.
  destruct (Z.gtb_spec r 1) as [Hr1 | Hr1]; cbn [orb]; [exact Hv|].
  destruct (Z.gtb_spec c LCD_LINE_SIZE) as [Hc1 | Hc1]; [exact Hv|].
  cbv zeta. cbn [fst snd]. destruct s as [i loc ds cm].
  cbn [cursorLoc set_cursorLoc].
  unfold valid_addr, in_row0, in_row1, LCD_ORIG_ADDR_FIRST,
    LCD_ORIG_ADDR_SECOND, LCD_LINE_SIZE in *.
  destruct (Z.eqb_spec r 0); cbn [negb]; rewrite u32_small by lia; lia.
Qed.

Lemma putc_valid (c : Z) (s : HD44780LCD) :
  valid_addr (cursorLoc s) ->
  valid_addr (cursorLoc (after (_putc c) s)).
Proof.
  intros Hv. unfold _putc.
  rewrite after_bind.
  replace (after get_cursor_row s) with s by (destruct s; reflexivity).
  rewrite after_bind.
  replace (after get_cursor_col s) with s by (destruct s; reflexivity).
  destruct (row_col_of_bounded s (valid_addr_bound _ Hv)) as (Hr & Hc & Hloc).
  assert (Hc39 : value get_cursor_col s <> LCD_LINE_SIZE).
  { unfold valid_addr, in_row0, in_row1, LCD_ORIG_ADDR_FIRST,
      LCD_ORIG_ADDR_SECOND, LCD_LINE_SIZE in *.
    destruct Hr as [Hr | Hr]; rewrite Hr in Hloc; cbn [Z.eqb negb] in Hloc; lia. }
  unfold LCD_LINE_SIZE in Hc.
  destruct (c =? 10); [|destruct (c =? 13)]; rewrite after_bind.
  - change (valid_addr (cursorLoc (after (set_cursor_pos
              (u32 (Z.lxor (value get_cursor_row s) 1))
              (value get_cursor_col s)) s))).
    apply set_cursor_pos_valid; unfold is_u32; [| lia | exact Hc39 | exact Hv].
    destruct Hr as [-> | ->]; vm_compute; split; congruence.
  - change (valid_addr (cursorLoc
              (after (set_cursor_pos (value get_cursor_row s) 0) s))).
    apply set_cursor_pos_valid; unfold is_u32, LCD_LINE_SIZE;
      [lia | lia | lia | exact Hv].
  - change (valid_addr (cursorLoc (after (send_data (u8 c)) s))).
    apply send_data_valid, Hv.
Qed.

Ltac cursor_unchanged_case s :=
  destruct s as [[? ?] ? ? ?]; assumption.

Lemma run_call_valid (c : call) (s : HD44780LCD) :
  well_typed c -> avoids_col40 c ->
  valid_addr (cursorLoc s) ->
  valid_addr (cursorLoc (after (run_call c) s)).
Proof.
  intros Hwt Hav Hv.
  destruct c; cbn [run_call well_typed avoids_col40] in *;
    try solve [cursor_unchanged_case s].
  - apply send_data_valid, Hv.
  - apply send_buffer_valid, Hv.
  - unfold after.
    rewrite create_custom_char_run by (apply valid_addr_bound, Hv). exact Hv.
  - destruct s as [[? ?] ? ? ?]. left. vm_compute.
    split; [discriminate | reflexivity].
  - rewrite after_move_cursor_left. destruct s as [i l ds cm].
    apply prev_loc_valid. exact Hv.
  - rewrite after_move_cursor_right. destruct s as [i l ds cm].
    apply next_loc_valid.
  - apply set_cursor_pos_valid; [apply Hwt | apply Hwt | exact Hav | exact Hv].
  - unfold discard. rewrite after_bind. apply (putc_valid c s Hv).
Qed.

(** X10: whatever sequence of public calls a client makes on a fresh
    driver, as long as it never passes column 40 to [set_cursor_pos], the
    stored address is a cell of row 0 or of row 1 after every call. *)
Theorem valid_addr_below_col40 (calls : list call)
  (Hwt : Forall well_typed calls) (Hav : Forall avoids_col40 calls) :
  valid_addr (cursorLoc (after (for_each calls run_call) new_HD44780LCD)) /\
  ~ in_gap (cursorLoc (after (for_each calls run_call) new_HD44780LCD)).
Proof.
  assert (Hgen : forall s, valid_addr (cursorLoc s) ->
            valid_addr (cursorLoc (after (for_each calls run_call) s))).
  { induction calls as [|c calls IH]; intros s Hv; [exact Hv|].
    cbn [for_each]. rewrite after_bind.
    apply IH.
    - inversion Hwt; assumption.
    - inversion Hav; assumption.
    - apply run_call_valid; [inversion Hwt | inversion Hav |]; assumption. }
  assert (Hv : valid_addr
                 (cursorLoc (after (for_each calls run_call) new_HD44780LCD))).
  { apply Hgen. left. vm_compute. split; [discriminate | reflexivity]. }
  split; [exact Hv|].
  unfold valid_addr, in_row0, in_row1, in_gap in *. lia.
Qed.

Lemma valid_addr_below_col40_witness :
  valid_addr (cursorLoc
    (after (for_each [Initialize; Set_cursor_pos 0 39; Send_data 72; Putc 10]
              run_call) new_HD44780LCD)).
Proof.
  refine (proj1 (valid_addr_below_col40
            [Initialize; Set_cursor_pos 0 39; Send_data 72; Putc 10] _ _)).
  - repeat constructor; cbn; unfold is_u32, is_u8, is_int; lia.
  - repeat constructor. cbn. unfold LCD_LINE_SIZE. lia.
Defined.

(** ** Writing characters *)

Lemma for_each_app {S A} (l1 l2 : list A) (body : A -> M S unit) (s : S) :
  for_each (l1 ++ l2) body s = (for_each l1 body ;; for_each l2 body) s.
Proof.
  revert s. induction l1 as [|x l1 IH]; intros s.
  - cbn [app for_each]. unfold bind, ret.
    destruct (for_each l2 body s) as [[[] s2] t2]. reflexivity.
  - cbn [app for_each]. unfold bind.
    destruct (body x s) as [[u1 s1] t1]. rewrite IH. unfold bind.
    destruct (for_each l1 body s1) as [[u2 s2] t2].
    destruct (for_each l2 body s2) as [[u3 s3] t3].
    rewrite app_assoc. reflexivity.
Qed.

(** X11: sending the concatenation of two buffers is sending the first and
    then the second: same final state, same bus traffic. *)
Theorem send_buffer_app (buf1 buf2 : list Z) (s : HD44780LCD) :
  send_buffer (buf1 ++ buf2) s = (send_buffer buf1 ;; send_buffer buf2) s.
Proof. unfold send_buffer. apply for_each_app. Qed.

Lemma data_write_set_cursorLoc (a b : Z) (s : HD44780LCD) :
  data_write (set_cursorLoc a s) b = data_write s b.
Proof. destruct s. reflexivity. Qed.

Lemma send_buffer_run (buf : list Z) (s : HD44780LCD) :
  send_buffer buf s =
  (tt,
   set_cursorLoc
     (Nat.iter (length buf) (step_loc (cursorMovement s)) (cursorLoc s)) s,
   flat_map (data_write s) buf).
Proof.
  unfold send_buffer. revert s.
  induction buf as [|b buf IH]; intros s.
  - cbn [for_each length flat_map]. unfold ret.
    change (Nat.iter 0 (step_loc (cursorMovement s)) (cursorLoc s))
      with (cursorLoc s).
    rewrite set_cursorLoc_same. reflexivity.
  - cbn [for_each length flat_map]. unfold bind.
    rewrite send_data_run, IH.
    fold (step_loc (cursorMovement s) (cursorLoc s)).
    rewrite set_cursorLoc_twice.
    destruct s as [i loc ds cm].
    cbn [cursorLoc cursorMovement set_cursorLoc].
    rewrite Nat.iter_swap. reflexivity.
Qed.

Lemma iter_next_in_row (n : nat) (a : Z) :
  (0 <= a /\ a + Z.of_nat n <= 39) \/ (64 <= a /\ a + Z.of_nat n <= 103) ->
  Nat.iter n next_loc a = a + Z.of_nat n.
Proof.
  induction n as [|n IH]; intros H.
  - change (Nat.iter 0 next_loc a) with a. lia.
  - change (Nat.iter (S n) next_loc a) with (next_loc (Nat.iter n next_loc a)).
    rewrite IH by lia.
    destruct H as [H | H].
    + rewrite next_loc_row0 by lia. lia.
    + rewrite next_loc_row1 by lia. lia.
Qed.

(** X12: in an incrementing entry mode, from column [c] of a row, sending
    a buffer of [n] bytes with [c + n] below 40 puts each byte on the bus
    as a data write, in order, and leaves the cursor [n] cells further in
    the same row; no other field changes. *)
Theorem send_buffer_within_row (buf : list Z) (s : HD44780LCD)
  (Hinc : Z.land (cursorMovement s) LCD_CURSOR_POS_INC <> 0)
  (Hv : valid_addr (cursorLoc s))
  (Hfit : value get_cursor_col s + Z.of_nat (length buf) < LCD_LINE_SIZE) :
  after (send_buffer buf) s =
    set_cursorLoc (cursorLoc s + Z.of_nat (length buf)) s /\
  trace (send_buffer buf) s = flat_map (data_write s) buf /\
  value get_cursor_row (after (send_buffer buf) s) = value get_cursor_row s /\
  value get_cursor_col (after (send_buffer buf) s) =
    value get_cursor_col s + Z.of_nat (length buf).
Proof.
  unfold after, trace. rewrite send_buffer_run. cbn [fst snd].
  assert (Hstep : step_loc (cursorMovement s) = next_loc).
  { unfold step_loc. apply Z.eqb_neq in Hinc. rewrite Hinc. reflexivity. }
  rewrite Hstep.
  destruct s as [i loc ds cm].
  unfold get_cursor_row, get_cursor_col, value, bind, gets, ret in *.
  cbn [fst cursorLoc set_cursorLoc] in *.
  unfold valid_addr, in_row0, in_row1, LCD_ORIG_ADDR_FIRST,
    LCD_ORIG_ADDR_SECOND, LCD_LINE_SIZE in *.
  destruct (Z.geb_spec loc 64) as [Hge | Hlt].
  - rewrite u32_small in Hfit by lia.
    rewrite iter_next_in_row by lia.
    rewrite geb_true by lia. rewrite !u32_small by lia.
    repeat split; try reflexivity; lia.
  - rewrite u32_small in Hfit by lia.
    rewrite iter_next_in_row by lia.
    rewrite geb_false by lia. rewrite !u32_small by lia.
    repeat split; try reflexivity; lia.
Qed.

Lemma send_buffer_within_row_witness :
  value get_cursor_row
    (after (send_buffer [72; 73]) (after initialize new_HD44780LCD)) = 0 /\
  value get_cursor_col
    (after (send_buffer [72; 73]) (after initialize new_HD44780LCD)) = 2.
Proof.
  assert (Hinc : Z.land (cursorMovement (after initialize new_HD44780LCD))
                   LCD_CURSOR_POS_INC <> 0) by (vm_compute; discriminate).
  assert (Hv : valid_addr (cursorLoc (after initialize new_HD44780LCD)))
    by (left; vm_compute; split; [discriminate | reflexivity]).
  assert (Hfit : value get_cursor_col (after initialize new_HD44780LCD)
                 + Z.of_nat (length [72; 73]) < LCD_LINE_SIZE)
    by (vm_compute; reflexivity).
  destruct (send_buffer_within_row [72; 73] (after initialize new_HD44780LCD)
              Hinc Hv Hfit) as (_ & _ & Hr & Hc).
  split; [exact Hr | exact Hc].
Defined.

Lemma valid_addr_In (a : Z) :
  valid_addr a -> In a (map Z.of_nat (seq 0 40 ++ seq 64 40)).
Proof.
  unfold valid_addr, in_row0, in_row1, LCD_ORIG_ADDR_FIRST,
    LCD_ORIG_ADDR_SECOND, LCD_LINE_SIZE.
  intros H. apply in_map_iff. exists (Z.to_nat a). split.
  - apply Z2Nat.id. lia.
  - apply in_app_iff. rewrite !in_seq. lia.
Qed.

Lemma iter80_next_valid (a : Z) :
  valid_addr a -> Nat.iter 80 next_loc a = a /\ Nat.iter 80 prev_loc a = a.
Proof.
  intros Hv.
  assert (Hn : forallb (fun a => Nat.iter 80 next_loc a =? a)
                 (map Z.of_nat (seq 0 40 ++ seq 64 40)) = true)
    by (vm_compute; reflexivity).
  assert (Hp : forallb (fun a => Nat.iter 80 prev_loc a =? a)
                 (map Z.of_nat (seq 0 40 ++ seq 64 40)) = true)
    by (vm_compute; reflexivity).
  pose proof (proj1 (forallb_forall _ _) Hn a (valid_addr_In a Hv)) as H1.
  pose proof (proj1 (forallb_forall _ _) Hp a (valid_addr_In a Hv)) as H2.
  split; [exact (proj1 (Z.eqb_eq _ _) H1) | exact (proj1 (Z.eqb_eq _ _) H2)].
Qed.

(** X13: from any cell of a row, in either direction of the entry mode,
    sending 80 bytes brings the cursor back to the cell it started from and
    changes no field. *)
Theorem send_buffer_full_cycle (buf : list Z) (s : HD44780LCD)
  (Hv : valid_addr (cursorLoc s)) (Hlen : length buf = 80%nat) :
  after (send_buffer buf) s = s.
Proof.
  unfold after. rewrite send_buffer_run, Hlen. cbn [fst snd].
  destruct (iter80_next_valid _ Hv) as (Hnext & Hprev).
  destruct (Z.land (cursorMovement s) LCD_CURSOR_POS_INC =? 0) eqn:E.
  - assert (Hstep : step_loc (cursorMovement s) = prev_loc)
      by (unfold step_loc; rewrite E; reflexivity).
    rewrite Hstep, Hprev. apply set_cursorLoc_same.
  - assert (Hstep : step_loc (cursorMovement s) = next_loc)
      by (unfold step_loc; rewrite E; reflexivity).
    rewrite Hstep, Hnext. apply set_cursorLoc_same.
Qed.

Lemma send_buffer_full_cycle_witness :
  after (send_buffer (repeat 32 80)) (set_cursorLoc 70 new_HD44780LCD) =
  set_cursorLoc 70 new_HD44780LCD.
Proof.
  apply send_buffer_full_cycle.
  - right. vm_compute. split; [discriminate | reflexivity].
  - reflexivity.
Defined.

(** X14: [send_data] moves the stored address as [move_cursor_right] does
    after [set_cursor_auto_inc] and after [set_display_auto_dec], and as
    [move_cursor_left] does after [set_cursor_auto_dec] and after
    [set_display_auto_inc]: only the direction bit of the mask decides. *)
Theorem send_data_direction (s : HD44780LCD) (byte : Z) :
  cursorLoc (after (set_cursor_auto_inc ;; send_data byte) s) =
    cursorLoc (after move_cursor_right s) /\
  cursorLoc (after (set_display_auto_dec ;; send_data byte) s) =
    cursorLoc (after move_cursor_right s) /\
  cursorLoc (after (set_cursor_auto_dec ;; send_data byte) s) =
    cursorLoc (after move_cursor_left s) /\
  cursorLoc (after (set_display_auto_inc ;; send_data byte) s) =
    cursorLoc (after move_cursor_left s).
Proof.
  rewrite after_move_cursor_right, after_move_cursor_left.
  rewrite !after_bind. unfold after at 1 3 5 7. rewrite !send_data_run.
  destruct s as [[a bl] loc ds cm].
  repeat split; reflexivity.
Qed.

(** ** Backlight *)

(** X15: [enable_backlight] makes [is_backlight_on] true and writes the
    single byte 0x08; on a reachable state [disable_backlight] makes it
    false and writes the single byte 0x00.  Neither sends a strobe, and
    neither touches the address or the two masks. *)
Theorem backlight_enable_disable (s : HD44780LCD) (Hs : reachable s) :
  (value is_backlight_on (after enable_backlight s) = true /\
   trace enable_backlight s = [I2CWrite (I2CInterface.addr (con s)) 8] /\
   after enable_backlight s =
     set_con (I2CInterface.set_backlightMask 8 (con s)) s) /\
  (value is_backlight_on (after disable_backlight s) = false /\
   trace disable_backlight s = [I2CWrite (I2CInterface.addr (con s)) 0] /\
   after disable_backlight s =
     set_con (I2CInterface.set_backlightMask 0 (con s)) s).
Proof.
  destruct (reachable_inv s Hs) as (_ & Hb & _).
  destruct s as [[a bl] loc ds cm].
  cbn [con I2CInterface.backlightMask] in Hb.
  split; [repeat split; reflexivity|].
  destruct Hb as [-> | ->]; repeat split; reflexivity.
Qed.

Lemma backlight_enable_disable_witness :
  value is_backlight_on
    (after disable_backlight (after (run_call Enable_backlight)
                                new_HD44780LCD)) = false.
Proof.
  assert (Hr : reachable (after (run_call Enable_backlight) new_HD44780LCD))
    by (apply reach_call; [apply reach_new | exact I]).
  exact (proj1 (proj2 (backlight_enable_disable _ Hr))).
Defined.

(** X16: on a reachable state [toggle_backlight] inverts [is_backlight_on],
    writes the new mask as one byte, and applied twice gives back the state
    it started from. *)
Theorem backlight_toggle (s : HD44780LCD) (Hs : reachable s) :
  value is_backlight_on (after toggle_backlight s) =
    negb (value is_backlight_on s) /\
  trace toggle_backlight s =
    [I2CWrite (I2CInterface.addr (con s))
       (if value is_backlight_on s then 0 else 8)] /\
  after (toggle_backlight ;; toggle_backlight) s = s.
Proof.
  destruct (reachable_inv s Hs) as (_ & Hb & _).
  destruct s as [[a bl] loc ds cm].
  cbn [con I2CInterface.backlightMask] in Hb.
  destruct Hb as [-> | ->]; repeat split; reflexivity.
Qed.

Lemma backlight_toggle_witness :
  after (toggle_backlight ;; toggle_backlight) new_HD44780LCD
    = new_HD44780LCD.
Proof. exact (proj2 (proj2 (backlight_toggle new_HD44780LCD reach_new))). Defined.

(** ** The three display-control bits *)

Ltac by_display_mask s Hs :=
  let Hd := fresh "Hd" in
  pose proof (proj1 (proj2 (proj2 (reachable_inv s Hs)))) as Hd;
  destruct s as [[? ?] ? ?d ?];
  cbn [displayState] in Hd;
  destruct (mask3_cases _ Hd)
    as [-> | [-> | [-> | [-> | [-> | [-> | [-> | ->]]]]]]];
  repeat split; reflexivity.

(** X17: on a reachable state, [enable_cursor_display] makes
    [is_cursor_displayed] true, [disable_cursor_display] makes it false and
    [toggle_cursor_display] inverts it; none of the three changes
    [is_blinking_cursor_displayed] or the display-enable bit. *)
Theorem cursor_display_bit (s : HD44780LCD) (Hs : reachable s) :
  (value is_cursor_displayed (after enable_cursor_display s) = true /\
   value is_cursor_displayed (after disable_cursor_display s) = false /\
   value is_cursor_displayed (after toggle_cursor_display s) =
     negb (value is_cursor_displayed s)) /\
  (value is_blinking_cursor_displayed (after enable_cursor_display s) =
     value is_blinking_cursor_displayed s /\
   value is_blinking_cursor_displayed (after disable_cursor_display s) =
     value is_blinking_cursor_displayed s /\
   value is_blinking_cursor_displayed (after toggle_cursor_display s) =
     value is_blinking_cursor_displayed s) /\
  (Z.land (displayState (after enable_cursor_display s)) LCD_DISPLAY_ENABLE =
     Z.land (displayState s) LCD_DISPLAY_ENABLE /\
   Z.land (displayState (after disable_cursor_display s)) LCD_DISPLAY_ENABLE =
     Z.land (displayState s) LCD_DISPLAY_ENABLE /\
   Z.land (displayState (after toggle_cursor_display s)) LCD_DISPLAY_ENABLE =
     Z.land (displayState s) LCD_DISPLAY_ENABLE).
Proof. by_display_mask s Hs. Qed.

Lemma cursor_display_bit_witness :
  value is_cursor_displayed
    (after enable_cursor_display (after (run_call Initialize) new_HD44780LCD))
  = true.
Proof.
  assert (Hr : reachable (after (run_call Initialize) new_HD44780LCD))
    by (apply reach_call; [apply reach_new | exact I]).
  exact (proj1 (proj1 (cursor_display_bit _ Hr))).
Defined.

(** X18: on a reachable state, [enable_blinking_cursor] makes
    [is_blinking_cursor_displayed] true, [disable_blinking_cursor] makes it
    false and [toggle_blinking_cursor] inverts it; none of the three changes
    [is_cursor_displayed] or the display-enable bit. *)
Theorem blinking_cursor_bit (s : HD44780LCD) (Hs : reachable s) :
  (value is_blinking_cursor_displayed (after enable_blinking_cursor s)
     = true /\
   value is_blinking_cursor_displayed (after disable_blinking_cursor s)
     = false /\
   value is_blinking_cursor_displayed (after toggle_blinking_cursor s) =
     negb (value is_blinking_cursor_displayed s)) /\
  (value is_cursor_displayed (after enable_blinking_cursor s) =
     value is_cursor_displayed s /\
   value is_cursor_displayed (after disable_blinking_cursor s) =
     value is_cursor_displayed s /\
   value is_cursor_displayed (after toggle_blinking_cursor s) =
     value is_cursor_displayed s) /\
  (Z.land (displayState (after enable_blinking_cursor s)) LCD_DISPLAY_ENABLE =
     Z.land (displayState s) LCD_DISPLAY_ENABLE /\
   Z.land (displayState (after disable_blinking_cursor s)) LCD_DISPLAY_ENABLE =
     Z.land (displayState s) LCD_DISPLAY_ENABLE /\
   Z.land (displayState (after toggle_blinking_cursor s)) LCD_DISPLAY_ENABLE =
     Z.land (displayState s) LCD_DISPLAY_ENABLE).
Proof. by_display_mask s Hs. Qed.

Lemma blinking_cursor_bit_witness :
  value is_blinking_cursor_displayed
    (after toggle_blinking_cursor
       (after (run_call Initialize) new_HD44780LCD)) =
  negb (value is_blinking_cursor_displayed
          (after (run_call Initialize) new_HD44780LCD)).
Proof.
  assert (Hr : reachable (after (run_call Initialize) new_HD44780LCD))
    by (apply reach_call; [apply reach_new | exact I]).
  exact (proj2 (proj2 (proj1 (blinking_cursor_bit _ Hr)))).
Defined.

(** X19: on a reachable state, [enable_display] sets the display-enable
    bit and makes [is_display_enabled] true; [disable_display] clears the
    bit, but [is_display_enabled] then still answers true exactly when the
    underline cursor or the blinking cursor is enabled.  Neither changes the
    cursor and blink accessors. *)
Theorem display_enable_bit (s : HD44780LCD) (Hs : reachable s) :
  (Z.land (displayState (after enable_display s)) LCD_DISPLAY_ENABLE
     = LCD_DISPLAY_ENABLE /\
   value is_display_enabled (after enable_display s) = true) /\
  (Z.land (displayState (after disable_display s)) LCD_DISPLAY_ENABLE = 0 /\
   value is_display_enabled (after disable_display s) =
     value is_cursor_displayed s || value is_blinking_cursor_displayed s) /\
  (value is_cursor_displayed (after enable_display s) =
     value is_cursor_displayed s /\
   value is_cursor_displayed (after disable_display s) =
     value is_cursor_displayed s /\
   value is_blinking_cursor_displayed (after enable_display s) =
     value is_blinking_cursor_displayed s /\
   value is_blinking_cursor_displayed (after disable_display s) =
     value is_blinking_cursor_displayed s).
Proof. by_display_mask s Hs. Qed.

Lemma display_enable_bit_witness :
  value is_display_enabled
    (after disable_display (after (run_call Initialize) new_HD44780LCD)) =
  value is_cursor_displayed (after (run_call Initialize) new_HD44780LCD)
  || value is_blinking_cursor_displayed
       (after (run_call Initialize) new_HD44780LCD).
Proof.
  assert (Hr : reachable (after (run_call Initialize) new_HD44780LCD))
    by (apply reach_call; [apply reach_new | exact I]).
  exact (proj2 (proj1 (proj2 (display_enable_bit _ Hr)))).
Defined.

(** X20: on a reachable state, each of the nine display-control methods
    and each of the four entry-mode methods sends exactly one instruction,
    and that instruction carries the mask the method has just stored: 0x08
    plus the display-control mask, or 0x04 plus the entry-mode mask. *)
Theorem masks_pushed_on_write (s : HD44780LCD) (Hs : reachable s) :
  (forall m, In m display_control_methods ->
     trace m s =
       instruction_write s (LCD_CONTROL_DISPLAY + displayState (after m s))) /\
  (forall m, In m entry_mode_methods ->
     trace m s =
       instruction_write s (LCD_SET_ENTRY_MODE + cursorMovement (after m s))).
Proof.
  pose proof (proj1 (proj2 (proj2 (reachable_inv s Hs)))) as Hd.
  destruct s as [[a bl] loc ds cm]. cbn [displayState] in Hd.
  split; intros m Hm.
  - unfold display_control_methods in Hm. cbn [In] in Hm.
    destruct (mask3_cases _ Hd)
      as [-> | [-> | [-> | [-> | [-> | [-> | [-> | ->]]]]]]];
      repeat (destruct Hm as [<- | Hm]; [reflexivity|]); contradiction.
  - unfold entry_mode_methods in Hm. cbn [In] in Hm.
    repeat (destruct Hm as [<- | Hm]; [reflexivity|]); contradiction.
Qed.

Lemma masks_pushed_on_write_witness :
  trace enable_blinking_cursor
    (after enable_cursor_display (after initialize new_HD44780LCD)) =
  instruction_write
    (after enable_cursor_display (after initialize new_HD44780LCD))
    (LCD_CONTROL_DISPLAY + 7).
Proof.
  assert (Hr : reachable (after (run_call Enable_cursor_display)
                            (after (run_call Initialize) new_HD44780LCD))).
  { apply reach_call; [apply reach_call; [apply reach_new | exact I] | exact I]. }
  apply (proj1 (masks_pushed_on_write _ Hr) enable_blinking_cursor).
  unfold display_control_methods. cbn [In]. tauto.
Defined.

(** ** Initialization *)

(** X21: whatever the masks were, [initialize] stores display-control mask
    4 and entry-mode mask 2 and leaves the stored address and the backlight
    alone; it waits 50 ms, sends the nibble 3 three times (5 ms after each)
    and the nibble 2 (2 ms after), then the instructions 0x28, 0x01, 0x02,
    0x0C and 0x06, 2 ms after each. *)
Theorem initialize_resets (s : HD44780LCD) :
  after initialize s = set_cursorMovement 2 (set_displayState 4 s) /\
  trace initialize s =
   (let a := I2CInterface.addr (con s) in
    let bl := I2CInterface.backlightMask (con s) in
    [SleepFor 50] ++
    (paced a (nibble_frame bl 3 0) ++ [SleepFor 5]) ++
    (paced a (nibble_frame bl 3 0) ++ [SleepFor 5]) ++
    (paced a (nibble_frame bl 3 0) ++ [SleepFor 5]) ++
    (paced a (nibble_frame bl 2 0) ++ [SleepFor 2]) ++
    (instruction_write s 0x28 ++ [SleepFor 2]) ++
    (instruction_write s 0x01 ++ [SleepFor 2]) ++
    (instruction_write s 0x02 ++ [SleepFor 2]) ++
    (instruction_write s 0x0C ++ [SleepFor 2]) ++
    (instruction_write s 0x06 ++ [SleepFor 2])) /\
  value get_entry_mode (after initialize s) = CURSOR_INC /\
  value is_display_enabled (after initialize s) = true /\
  value is_cursor_displayed (after initialize s) = false /\
  value is_blinking_cursor_displayed (after initialize s) = false /\
  after (initialize ;; initialize) s = after initialize s.
Proof.
  destruct s as [[a bl] loc ds cm]. repeat split; reflexivity.
Qed.

(** ** Framing of a nibble *)

Lemma nibble_layoutb_all :
  forallb (fun n =>
    forallb (fun bl => forallb (fun d =>
      match nibble_frame bl n d with
      | [w0; w1; w2] =>
          phase_layoutb n (negb (bl =? 0)) false (d =? 1) w0 &&
          phase_layoutb n (negb (bl =? 0)) true (d =? 1) w1 &&
          phase_layoutb n (negb (bl =? 0)) false (d =? 1) w2
      | _ => false
      end) [0; 1]) [0; 8])
    (map Z.of_nat (seq 0 16)) = true.
Proof. vm_compute. reflexivity. Qed.

(** X22: [send_nibble], for a nibble below 16, performs exactly three
    one-byte writes, each followed by a 1 ms sleep, with the strobe low,
    high, low; each byte carries the nibble in bits 7..4, the backlight in
    bit 3, 0 in bit 1 and [isData] in bit 0.  The interface state is
    unchanged. *)
Theorem send_nibble_wire_frames (i : I2CInterface.t) (nibble isData : Z)
  (Hn : 0 <= nibble < 16)
  (Hrs : isData = 0 \/ isData = 1)
  (Hbl : I2CInterface.backlightMask i = 0 \/
         I2CInterface.backlightMask i = Z.shiftl 1 BACKLIGHT_ID) :
  exists w0 w1 w2 : Z,
    I2CInterface.send_nibble nibble isData i =
      (tt, i, [I2CWrite (I2CInterface.addr i) w0; SleepFor 1;
               I2CWrite (I2CInterface.addr i) w1; SleepFor 1;
               I2CWrite (I2CInterface.addr i) w2; SleepFor 1]) /\
    phase_layout nibble (value I2CInterface.is_backlight_on i) false
      (isData =? 1) w0 /\
    phase_layout nibble (value I2CInterface.is_backlight_on i) true
      (isData =? 1) w1 /\
    phase_layout nibble (value I2CInterface.is_backlight_on i) false
      (isData =? 1) w2.
Proof.
  destruct i as [a bl]. cbn [I2CInterface.backlightMask I2CInterface.addr] in *.
  change (Z.shiftl 1 BACKLIGHT_ID) with 8 in Hbl.
  pose proof (Z_range_forallb _ 16 nibble_layoutb_all nibble Hn) as H.
  cbv beta in H. cbn [forallb] in H. rewrite !andb_true_r in H.
  apply andb_prop in H. destruct H as [H0 H8].
  apply andb_prop in H0. destruct H0 as [H00 H01].
  apply andb_prop in H8. destruct H8 as [H80 H81].
  assert (H : match nibble_frame bl nibble isData with
              | [w0; w1; w2] =>
                  phase_layoutb nibble (negb (bl =? 0)) false (isData =? 1) w0
                  && phase_layoutb nibble (negb (bl =? 0)) true
                       (isData =? 1) w1
                  && phase_layoutb nibble (negb (bl =? 0)) false
                       (isData =? 1) w2
              | _ => false
              end = true)
    by (destruct Hrs as [-> | ->], Hbl as [-> | ->]; assumption).
  clear H00 H01 H80 H81.
  unfold nibble_frame in H. apply andb_prop in H. destruct H as [H P2].
  apply andb_prop in H. destruct H as [P0 P1].
  apply phase_layoutb_sound in P0, P1, P2.
  do 3 eexists. split; [|split; [|split]].
  - rewrite send_nibble_run. unfold nibble_frame, paced.
    cbn [flat_map app I2CInterface.addr I2CInterface.backlightMask].
    reflexivity.
  - exact P0.
  - exact P1.
  - exact P2.
Qed.

Lemma send_nibble_wire_frames_witness :
  exists w0 w1 w2 : Z,
    I2CInterface.send_nibble 3 0 (I2CInterface.new DEFAULT_I2C_ADDR) =
      (tt, I2CInterface.new DEFAULT_I2C_ADDR,
       [I2CWrite 0x4E w0; SleepFor 1; I2CWrite 0x4E w1; SleepFor 1;
        I2CWrite 0x4E w2; SleepFor 1]) /\
    phase_layout 3 false true false w1.
Proof.
  assert (Hn : 0 <= 3 < 16) by lia.
  assert (Hrs : 0 = 0 \/ 0 = 1) by (left; reflexivity).
  assert (Hbl : I2CInterface.backlightMask
                  (I2CInterface.new DEFAULT_I2C_ADDR) = 0 \/
                I2CInterface.backlightMask
                  (I2CInterface.new DEFAULT_I2C_ADDR) =
                Z.shiftl 1 BACKLIGHT_ID) by (left; reflexivity).
  destruct (send_nibble_wire_frames (I2CInterface.new DEFAULT_I2C_ADDR) 3 0
              Hn Hrs Hbl) as (w0 & w1 & w2 & Hrun & _ & P1 & _).
  exists w0, w1, w2. split; [exact Hrun | exact P1].
Defined.

(** ** The character sink *)

Lemma row_col_of_set (r c : Z) (s : HD44780LCD) :
  r = 0 \/ r = 1 -> 0 <= c <= 40 ->
  value get_cursor_row (set_cursorLoc (64 * r + c) s) = r /\
  value get_cursor_col (set_cursorLoc (64 * r + c) s) = c.
Proof.
  intros Hr Hc. destruct s as [i loc ds cm].
  unfold get_cursor_row, get_cursor_col, value, bind, gets, ret.
  cbn [fst cursorLoc set_cursorLoc].
  unfold LCD_ORIG_ADDR_SECOND, LCD_ORIG_ADDR_FIRST.
  destruct Hr as [-> | ->].
  - rewrite geb_false by lia. rewrite u32_small by lia. lia.
  - rewrite geb_true by lia. rewrite u32_small by lia. lia.
Qed.

Lemma putc_newline_run (s : HD44780LCD) :
  _putc 10 s =
  (0,
   after (set_cursor_pos (u32 (Z.lxor (value get_cursor_row s) 1))
            (value get_cursor_col s)) s,
   trace (set_cursor_pos (u32 (Z.lxor (value get_cursor_row s) 1))
            (value get_cursor_col s)) s).
Proof.
  unfold _putc, bind at 1 2. cbn [Z.eqb Pos.eqb].
  unfold get_cursor_row at 1, get_cursor_col at 1, bind at 2 3, gets, ret.
  unfold after, trace, bind.
  change (value get_cursor_row s)
    with (if cursorLoc s >=? LCD_ORIG_ADDR_SECOND then 1 else 0).
  change (value get_cursor_col s)
    with (u32 (cursorLoc s - (if cursorLoc s >=? LCD_ORIG_ADDR_SECOND
                              then LCD_ORIG_ADDR_SECOND
                              else LCD_ORIG_ADDR_FIRST))).
  destruct (set_cursor_pos _ _ s) as [[u s'] t].
  cbn [fst snd app]. rewrite app_nil_r. reflexivity.
Qed.

Lemma putc_return_run (s : HD44780LCD) :
  _putc 13 s =
  (0, after (set_cursor_pos (value get_cursor_row s) 0) s,
   trace (set_cursor_pos (value get_cursor_row s) 0) s).
Proof.
  unfold _putc, bind at 1 2. cbn [Z.eqb Pos.eqb].
  unfold get_cursor_row at 1, get_cursor_col at 1, bind at 2 3, gets, ret.
  unfold after, trace, bind.
  change (value get_cursor_row s)
    with (if cursorLoc s >=? LCD_ORIG_ADDR_SECOND then 1 else 0).
  destruct (set_cursor_pos _ _ s) as [[u s'] t].
  cbn [fst snd app]. rewrite app_nil_r. reflexivity.
Qed.

(** X23: on a reachable state, [_putc] of a newline returns 0, moves to
    the other row keeping the column, and sends the one instruction 0x80
    plus the new address. *)
Theorem putc_newline (s : HD44780LCD) (Hs : reachable s) :
  value (_putc 10) s = 0 /\
  value get_cursor_row (after (_putc 10) s) = 1 - value get_cursor_row s /\
  value get_cursor_col (after (_putc 10) s) = value get_cursor_col s /\
  trace (_putc 10) s =
    instruction_write s
      (128 + (64 * (1 - value get_cursor_row s) + value get_cursor_col s)).
Proof.
  destruct (row_col_of_bounded s (proj1 (reachable_inv s Hs)))
    as (Hr & Hc & _).
  unfold LCD_LINE_SIZE in Hc.
  unfold value at 1, after, trace. rewrite putc_newline_run. cbn [fst snd].
  assert (Hflip : u32 (Z.lxor (value get_cursor_row s) 1)
                  = 1 - value get_cursor_row s)
    by (destruct Hr as [-> | ->]; reflexivity).
  rewrite Hflip.
  assert (Hr' : 1 - value get_cursor_row s = 0 \/
                1 - value get_cursor_row s = 1) by lia.
  destruct (set_cursor_pos_in_range s _ _ Hr' Hc) as (Ha & Ht).
  fold (after (set_cursor_pos (1 - value get_cursor_row s)
                 (value get_cursor_col s)) s).
  fold (trace (set_cursor_pos (1 - value get_cursor_row s)
                 (value get_cursor_col s)) s).
  rewrite Ha, Ht.
  destruct (row_col_of_set _ _ s Hr' Hc) as (H1 & H2).
  repeat split; assumption.
Qed.

Lemma putc_newline_witness :
  value get_cursor_row (after (_putc 10) new_HD44780LCD) =
  1 - value get_cursor_row new_HD44780LCD.
Proof. exact (proj1 (proj2 (putc_newline new_HD44780LCD reach_new))). Defined.

(** X24: on a reachable state, [_putc] of a carriage return returns 0,
    moves to column 0 of the current row, and sends the one instruction
    0x80 plus the row's base address. *)
Theorem putc_carriage_return (s : HD44780LCD) (Hs : reachable s) :
  value (_putc 13) s = 0 /\
  value get_cursor_row (after (_putc 13) s) = value get_cursor_row s /\
  value get_cursor_col (after (_putc 13) s) = 0 /\
  trace (_putc 13) s =
    instruction_write s (128 + (64 * value get_cursor_row s + 0)).
Proof.
  destruct (row_col_of_bounded s (proj1 (reachable_inv s Hs)))
    as (Hr & _ & _).
  unfold value at 1, after, trace. rewrite putc_return_run. cbn [fst snd].
  assert (Hc : 0 <= 0 <= LCD_LINE_SIZE) by (unfold LCD_LINE_SIZE; lia).
  destruct (set_cursor_pos_in_range s _ _ Hr Hc) as (Ha & Ht).
  fold (after (set_cursor_pos (value get_cursor_row s) 0) s).
  fold (trace (set_cursor_pos (value get_cursor_row s) 0) s).
  rewrite Ha, Ht.
  assert (Hc' : 0 <= 0 <= 40) by lia.
  destruct (row_col_of_set _ _ s Hr Hc') as (H1 & H2).
  repeat split; assumption.
Qed.

Lemma putc_carriage_return_witness :
  value get_cursor_col (after (_putc 13) new_HD44780LCD) = 0.
Proof.
  exact (proj1 (proj2 (proj2 (putc_carriage_return new_HD44780LCD reach_new)))).
Defined.

(** X25: for any other character [_putc] returns 0 and does what
    [send_data] does with the character reduced modulo 256: same final
    state, same bus traffic.  So 266 is written as the data byte 10, not
    treated as a newline. *)
Theorem putc_other (s : HD44780LCD) (c : Z)
  (Hnl : c <> 10) (Hcr : c <> 13) :
  _putc c s =
  (0, after (send_data (c mod 256)) s, trace (send_data (c mod 256)) s).
Proof.
  unfold _putc, bind at 1 2.
  apply Z.eqb_neq in Hnl, Hcr. rewrite Hnl, Hcr.
  unfold get_cursor_row at 1, get_cursor_col at 1, bind at 2 3, gets, ret.
  unfold after, trace, bind, u8.
  destruct (send_data (c mod 256) s) as [[u s'] t].
  cbn [fst snd app]. rewrite app_nil_r. reflexivity.
Qed.

Lemma putc_other_witness :
  _putc 266 new_HD44780LCD =
  (0, after (send_data (266 mod 256)) new_HD44780LCD,
   trace (send_data (266 mod 256)) new_HD44780LCD).
Proof. apply putc_other; lia. Defined.

(** ** Bus discipline *)

Lemma disciplinedb_sound (a bl d : Z) :
  disciplinedb bl d = true -> disciplined a bl (I2CWrite a d).
Proof.
  unfold disciplinedb, disciplined. rewrite !andb_true_iff.
  intros (((Hlo & Hhi) & Hrw) & Hb).
  apply Z.leb_le in Hlo. apply Z.ltb_lt in Hhi.
  apply negb_true_iff in Hrw. apply Bool.eqb_prop in Hb.
  repeat split; assumption.
Qed.

Lemma paced_disciplined (a bl : Z) (ws : list Z) :
  forallb (disciplinedb bl) ws = true ->
  Forall (disciplined a bl) (paced a ws).
Proof.
  induction ws as [|w ws IH]; cbn [forallb paced flat_map app]; intros H.
  - constructor.
  - apply andb_prop in H. destruct H as [Hw Hws].
    constructor; [apply disciplinedb_sound, Hw|].
    constructor; [cbn; lia | apply IH, Hws].
Qed.

Lemma nibble_range (x : Z) : 0 <= Z.land x 0xf < 16.
Proof.
  change 0xf with (Z.ones 4). rewrite Z.land_ones by lia.
  apply Z.mod_pos_bound. lia.
Qed.

Lemma nibble_disciplinedb_all :
  forallb (fun n =>
    forallb (fun bl => forallb (fun d =>
      forallb (disciplinedb bl) (nibble_frame bl n d)) [0; 1]) [0; 8])
    (map Z.of_nat (seq 0 16)) = true.
Proof. vm_compute. reflexivity. Qed.

Lemma nibble_frame_disciplined (bl n d : Z) :
  0 <= n < 16 -> d = 0 \/ d = 1 -> bl = 0 \/ bl = 8 ->
  forallb (disciplinedb bl) (nibble_frame bl n d) = true.
Proof.
  intros Hn Hd Hbl.
  pose proof (Z_range_forallb _ 16 nibble_disciplinedb_all n Hn) as H.
  cbv beta in H. cbn [forallb] in H. rewrite !andb_true_r in H.
  apply andb_prop in H. destruct H as [H0 H8].
  apply andb_prop in H0. destruct H0 as [H00 H01].
  apply andb_prop in H8. destruct H8 as [H80 H81].
  destruct Hd as [-> | ->], Hbl as [-> | ->]; assumption.
Qed.

Lemma byte_frame_disciplined (bl byte d : Z) :
  d = 0 \/ d = 1 -> bl = 0 \/ bl = 8 ->
  forallb (disciplinedb bl) (byte_frame bl byte d) = true.
Proof.
  intros Hd Hbl. unfold byte_frame. rewrite forallb_app.
  apply andb_true_iff. split; apply nibble_frame_disciplined; try assumption.
  - unfold HI_NIBBLE. apply nibble_range.
  - unfold LO_NIBBLE. apply nibble_range.
Qed.

Lemma quiet_ret {A} (a : A) : quiet (ret a).
Proof. intros s _. split; [reflexivity | constructor]. Qed.

Lemma quiet_gets {A} (f : HD44780LCD -> A) : quiet (gets f).
Proof. intros s _. split; [reflexivity | constructor]. Qed.

Lemma quiet_modify (f : HD44780LCD -> HD44780LCD) :
  (forall s, con (f s) = con s) -> quiet (modify f).
Proof. intros Hf s _. split; [apply Hf | constructor]. Qed.

Lemma quiet_sleep (ms : Z) : 0 < ms -> quiet (sleep_for ms).
Proof.
  intros H s _. split; [reflexivity|].
  constructor; [exact H | constructor].
Qed.

Lemma quiet_bind {A B} (m : M HD44780LCD A) (f : A -> M HD44780LCD B) :
  quiet m -> (forall a, quiet (f a)) -> quiet (bind m f).
Proof.
  intros Hm Hf s Hbl. destruct (Hm s Hbl) as (Hc & Ht).
  assert (Hbl' : I2CInterface.backlightMask (con (after m s)) = 0 \/
                 I2CInterface.backlightMask (con (after m s)) = 8)
    by (rewrite Hc; exact Hbl).
  destruct (Hf (value m s) (after m s) Hbl') as (Hc' & Ht').
  rewrite after_bind, trace_bind. split.
  - rewrite Hc'. exact Hc.
  - apply Forall_app. split; [exact Ht|]. rewrite Hc in Ht'. exact Ht'.
Qed.

Lemma quiet_for_each {A} (l : list A) (body : A -> M HD44780LCD unit) :
  (forall x, quiet (body x)) -> quiet (for_each l body).
Proof.
  intros Hb. induction l as [|x l IH]; cbn [for_each].
  - apply quiet_ret.
  - apply quiet_bind; [apply Hb | intros _; exact IH].
Qed.

Lemma quiet_send_byte (byte d : Z) :
  d = 0 \/ d = 1 -> quiet (on_con (I2CInterface.send_byte byte d)).
Proof.
  intros Hd s Hbl. rewrite after_send_byte, trace_send_byte.
  split; [reflexivity|].
  apply paced_disciplined, byte_frame_disciplined; assumption.
Qed.

Lemma quiet_send_nibble (n d : Z) :
  0 <= n < 16 -> d = 0 \/ d = 1 ->
  quiet (on_con (I2CInterface.send_nibble n d)).
Proof.
  intros Hn Hd s Hbl. unfold after, trace, on_con.
  rewrite send_nibble_run, set_con_same. cbn [fst snd].
  split; [reflexivity|].
  apply paced_disciplined, nibble_frame_disciplined; assumption.
Qed.

Ltac quiet_step :=
  match goal with
  | |- quiet (bind _ _) => apply quiet_bind; [|intros ?]
  | |- quiet (ret _) => apply quiet_ret
  | |- quiet (gets _) => apply quiet_gets
  | |- quiet (modify _) => apply quiet_modify; intros ?; reflexivity
  | |- quiet (sleep_for _) => apply quiet_sleep; lia
  | |- quiet (on_con (I2CInterface.send_byte _ _)) =>
      apply quiet_send_byte; first [left; reflexivity | right; reflexivity]
  | |- quiet (on_con (I2CInterface.send_nibble _ _)) =>
      apply quiet_send_nibble;
      [vm_compute; split; [discriminate | reflexivity]
      | first [left; reflexivity | right; reflexivity]]
  | |- quiet (for_each _ _) => apply quiet_for_each; intros ?
  | |- quiet (if ?c then _ else _) => destruct c
  end.

Lemma quiet_inc_cursor_loc : quiet inc_cursor_loc.
Proof. unfold inc_cursor_loc. repeat quiet_step. Qed.

Lemma quiet_dec_cursor_loc : quiet dec_cursor_loc.
Proof. unfold dec_cursor_loc. repeat quiet_step. Qed.

Lemma quiet_send_data (byte : Z) : quiet (send_data byte).
Proof.
  unfold send_data. repeat quiet_step;
    [apply quiet_inc_cursor_loc | apply quiet_dec_cursor_loc].
Qed.

Lemma quiet_set_cursor_pos (r c : Z) : quiet (set_cursor_pos r c).
Proof.
  unfold set_cursor_pos, update_display_cursor_pos. repeat quiet_step.
Qed.

Lemma quiet_initialize : quiet initialize.
Proof. unfold initialize. repeat quiet_step. Qed.

Lemma quiet_putc (c : Z) : quiet (_putc c).
Proof.
  unfold _putc, get_cursor_row, get_cursor_col. repeat quiet_step;
    first [apply quiet_set_cursor_pos | apply quiet_send_data].
Qed.

Lemma quiet_create_custom_char (loc : Z) (glyph : list Z) :
  quiet (create_custom_char loc glyph).
Proof.
  unfold create_custom_char, get_cursor_row, get_cursor_col.
  repeat quiet_step. apply quiet_set_cursor_pos.
Qed.

Ltac quiet_method :=
  lazymatch goal with
  | |- quiet initialize => apply quiet_initialize
  | |- quiet get_stream => apply quiet_initialize
  | |- quiet (send_data _) => apply quiet_send_data
  | |- quiet (send_buffer _) =>
      unfold send_buffer; apply quiet_for_each; intros ?;
      apply quiet_send_data
  | |- quiet (create_custom_char _ _) => apply quiet_create_custom_char
  | |- quiet (set_cursor_pos _ _) => apply quiet_set_cursor_pos
  | |- quiet (discard (_putc _)) =>
      unfold discard; apply quiet_bind;
      [apply quiet_putc | intros ?; apply quiet_ret]
  | |- quiet (discard ?m) => unfold discard, m; repeat quiet_step
  | |- quiet move_cursor_left =>
      unfold move_cursor_left; repeat quiet_step; apply quiet_dec_cursor_loc
  | |- quiet move_cursor_right =>
      unfold move_cursor_right; repeat quiet_step; apply quiet_inc_cursor_loc
  | |- quiet ?m => unfold m; repeat quiet_step
  end.

Lemma quiet_run_call (c : call) :
  c <> Enable_backlight -> c <> Disable_backlight ->
  c <> Toggle_backlight -> c <> Is_backlight_on ->
  quiet (run_call c).
Proof.
  intros He Hd Ht Hi.
  destruct c; try congruence; cbn [run_call]; quiet_method.
Qed.

(** X26: in every reachable state, whatever public method is called, every
    write it performs goes to the device address 0x4E, carries one byte
    below 256 whose read/write bit is clear and whose backlight bit is the
    backlight state the call leaves; every sleep is of positive length. *)
Theorem bus_discipline (s : HD44780LCD) (c : call) (Hs : reachable s) :
  Forall
    (disciplined DEFAULT_I2C_ADDR
       (I2CInterface.backlightMask (con (after (run_call c) s))))
    (trace (run_call c) s).
Proof.
  destruct (reachable_inv s Hs) as (_ & Hbl & _ & _ & Haddr).
  change (Z.shiftl 1 BACKLIGHT_ID) with 8 in Hbl.
  assert (Hq : quiet (run_call c) ->
    Forall (disciplined DEFAULT_I2C_ADDR
              (I2CInterface.backlightMask (con (after (run_call c) s))))
      (trace (run_call c) s)).
  { intros Hq. destruct (Hq s Hbl) as (Hc & Ht).
    rewrite Hc, <- Haddr. exact Ht. }
  destruct c;
    try (apply Hq; apply quiet_run_call; discriminate).
  - (* enable_backlight *)
    destruct s as [[a bl] loc ds cm].
    cbn [con I2CInterface.addr] in Haddr. subst a.
    constructor; [|constructor].
    cbn. repeat split; try reflexivity; lia.
  - destruct s as [[a bl] loc ds cm].
    cbn [con I2CInterface.addr I2CInterface.backlightMask] in Haddr, Hbl.
    subst a.
    destruct Hbl as [-> | ->]; (constructor; [|constructor]);
      cbn; repeat split; try reflexivity; lia.
  - destruct s as [[a bl] loc ds cm].
    cbn [con I2CInterface.addr I2CInterface.backlightMask] in Haddr, Hbl.
    subst a.
    destruct Hbl as [-> | ->]; (constructor; [|constructor]);
      cbn; repeat split; try reflexivity; lia.
  - destruct s as [[a bl] loc ds cm]. constructor.
Qed.

Lemma bus_discipline_witness :
  Forall
    (disciplined DEFAULT_I2C_ADDR
       (I2CInterface.backlightMask
          (con (after (run_call (Send_data 65))
                  (after (run_call Enable_backlight) new_HD44780LCD)))))
    (trace (run_call (Send_data 65))
       (after (run_call Enable_backlight) new_HD44780LCD)).
Proof.
  apply bus_discipline.
  apply reach_call; [apply reach_new | exact I].
Defined.

(** ** Glyph slots *)

Lemma cgram_byte (loc : Z) :
  0 <= loc < 8 ->
  u8 (Z.lor LCD_SET_CGRAMADDR (u32 (Z.shiftl loc 3))) = 64 + 8 * loc /\
  u8 (Z.lor LCD_SET_CGRAMADDR (u32 (Z.shiftl (loc + 8) 3))) = 64 + 8 * loc.
Proof.
  intros H.
  assert (Hall : forallb (fun l =>
            (u8 (Z.lor LCD_SET_CGRAMADDR (u32 (Z.shiftl l 3))) =? 64 + 8 * l)
            && (u8 (Z.lor LCD_SET_CGRAMADDR (u32 (Z.shiftl (l + 8) 3)))
                =? 64 + 8 * l))
            (map Z.of_nat (seq 0 8)) = true) by (vm_compute; reflexivity).
  pose proof (Z_range_forallb _ 8 Hall loc H) as Hl. cbv beta in Hl.
  apply andb_prop in Hl. destruct Hl as [H1 H2].
  split; apply Z.eqb_eq; assumption.
Qed.

(** X27: on a reachable state, for a slot from 0 to 7 and an 8-byte
    pattern, [create_custom_char] sends the instruction 0x40 plus 8 times
    the slot, the eight pattern bytes as data writes in order, and the instruction
    0x80 plus the stored address; the driver state is unchanged. *)
Theorem create_custom_char_slot (s : HD44780LCD) (loc : Z) (glyph : list Z)
  (Hs : reachable s) (Hloc : 0 <= loc < 8) (Hlen : length glyph = 8%nat) :
  create_custom_char loc glyph s =
  (tt, s,
   instruction_write s (64 + 8 * loc) ++
   flat_map (data_write s) glyph ++
   instruction_write s (128 + cursorLoc s)).
Proof.
  pose proof (proj1 (reachable_inv s Hs)) as Hb.
  rewrite (create_custom_char_run loc glyph s Hb).
  rewrite (proj1 (cgram_byte loc Hloc)).
  rewrite (flat_map_nth_8 (data_write s) glyph Hlen).
  assert (Hrange : 0 <= cursorLoc s < 105).
  { unfold addr_bound, LCD_ORIG_ADDR_FIRST, LCD_ORIG_ADDR_SECOND,
      LCD_LINE_SIZE in Hb. lia. }
  rewrite (proj2 (lor_ddram_small (cursorLoc s) Hrange)). reflexivity.
Qed.

Lemma create_custom_char_slot_witness :
  create_custom_char 7 [0; 10; 31; 31; 14; 4; 0; 0] new_HD44780LCD =
  (tt, new_HD44780LCD,
   instruction_write new_HD44780LCD (64 + 8 * 7) ++
   flat_map (data_write new_HD44780LCD) [0; 10; 31; 31; 14; 4; 0; 0] ++
   instruction_write new_HD44780LCD (128 + cursorLoc new_HD44780LCD)).
Proof.
  apply create_custom_char_slot; [apply reach_new | lia | reflexivity].
Defined.

(** X28: the slot number is not checked: slot [loc + 8], for [loc] from 0
    to 7, does exactly what slot [loc] does and so overwrites its pattern. *)
Theorem create_custom_char_slot_alias (s : HD44780LCD) (loc : Z)
  (glyph : list Z) (Hloc : 0 <= loc < 8) :
  create_custom_char (loc + 8) glyph s = create_custom_char loc glyph s.
Proof.
  unfold create_custom_char.
  destruct (cgram_byte loc Hloc) as (H1 & H2). rewrite H1, H2. reflexivity.
Qed.

Lemma create_custom_char_slot_alias_witness :
  create_custom_char (0 + 8) [31; 17; 17; 17; 17; 17; 31; 0] new_HD44780LCD =
  create_custom_char 0 [31; 17; 17; 17; 17; 17; 31; 0] new_HD44780LCD.
Proof. apply create_custom_char_slot_alias. lia. Defined.

(** ** Reading a frame back *)

Lemma decode_frame_all :
  forallb (fun b =>
    forallb (fun bl => forallb (fun d =>
      match decode_frame (byte_frame bl b d) with
      | Some (b', d') => (b' =? b) && (d' =? d)
      | None => false
      end) [0; 1]) [0; 8])
    (map Z.of_nat (seq 0 256)) = true.
Proof. vm_compute. reflexivity. Qed.

(** X29: the byte and the register-select bit can be read back from what
    [send_byte] writes: the high nibbles of the two strobed bytes, in that
    order, make up the byte, and bit 0 is [isData].  Different bytes, or a
    data and an instruction write of the same byte, never look alike on the
    bus. *)
Theorem send_byte_decodes (i : I2CInterface.t) (byte isData : Z)
  (Hbyte : 0 <= byte < 256)
  (Hrs : isData = 0 \/ isData = 1)
  (Hbl : I2CInterface.backlightMask i = 0 \/
         I2CInterface.backlightMask i = Z.shiftl 1 BACKLIGHT_ID) :
  decode_frame (bus_writes (trace (I2CInterface.send_byte byte isData) i)) =
  Some (byte, isData).
Proof.
  unfold trace. rewrite send_byte_run. cbn [snd].
  rewrite bus_writes_paced.
  destruct i as [a bl]. cbn [I2CInterface.backlightMask] in *.
  change (Z.shiftl 1 BACKLIGHT_ID) with 8 in Hbl.
  pose proof (Z_range_forallb _ 256 decode_frame_all byte Hbyte) as H.
  cbv beta in H. cbn [forallb] in H. rewrite !andb_true_r in H.
  apply andb_prop in H. destruct H as [H0 H8].
  apply andb_prop in H0. destruct H0 as [H00 H01].
  apply andb_prop in H8. destruct H8 as [H80 H81].
  assert (H : match decode_frame (byte_frame bl byte isData) with
              | Some (b', d') => (b' =? byte) && (d' =? isData)
              | None => false
              end = true)
    by (destruct Hrs as [-> | ->], Hbl as [-> | ->]; assumption).
  destruct (decode_frame (byte_frame bl byte isData)) as [[b' d']|];
    [|discriminate H].
  apply andb_prop in H. destruct H as [Hb Hd].
  apply Z.eqb_eq in Hb, Hd. subst. reflexivity.
Qed.

Lemma send_byte_decodes_witness :
  decode_frame
    (bus_writes (trace (I2CInterface.send_byte 0x48 1)
                   (I2CInterface.mk 0x4E 8))) = Some (0x48, 1).
Proof.
  apply send_byte_decodes; [lia | right; reflexivity | right; reflexivity].
Defined.
